(** * MKR5 / DART pump protocol engine: checksum, BCD codec, framing, decoding

    A shallow embedding of [utils.py], [driver.py] and [serial_io/driver.py].
    Python [bytes] are lists of [Byte.byte]; Python [int] is [Z]; Python
    [float] is IEEE-754 binary64, taken from the [SpecFloat] specification of
    the standard library; the decoded [dict] is a [gmap] from key strings to
    Python values; exceptions are an explicit error monad. *)

From Stdlib Require Import ZArith List String Ascii Lia.
From Stdlib.Strings Require Import Byte.
From Stdlib Require Import Floats.SpecFloat.
From stdpp Require Import base gmap strings list pretty.

Open Scope Z_scope.

(** ** Python exceptions and the error monad *)

Inductive exn : Type :=
  | IndexError
  | ValueError
  | OverflowError
  | ZeroDivisionError
  | NameError (name : string)
  | RuntimeError (msg : string).

Inductive result (A : Type) : Type :=
  | Ok (a : A)
  | Raise (e : exn).
Arguments Ok {A} a.
Arguments Raise {A} e.

#[global] Instance result_ret : MRet result := fun A a => Ok a.
#[global] Instance result_bind : MBind result := fun A B f m =>
  match m with
  | Ok a => f a
  | Raise e => Raise e
  end.
#[global] Instance result_fmap : FMap result := fun A B f m =>
  match m with
  | Ok a => Ok (f a)
  | Raise e => Raise e
  end.

Definition is_Ok {A} (m : result A) : Prop := exists a, m = Ok a.

(** ** Python sequences: bytes, indexing and slicing *)

(** Iterating over [bytes] yields ints in [0..255]. *)
Definition byte_val (b : byte) : Z := Z.of_N (Byte.to_N b).

(** [bytes([z])] accepts only [0 <= z < 256] and raises [ValueError] otherwise. *)
Definition to_byte (z : Z) : result byte :=
  if z <? 0 then Raise ValueError
  else match Byte.of_N (Z.to_N z) with
       | Some b => Ok b
       | None => Raise ValueError
       end.

(** [bytes(gen)]: the items are produced and range-checked left to right. *)
Fixpoint to_bytes (zs : list (result Z)) : result (list byte) :=
  match zs with
  | [] => Ok []
  | z :: rest =>
      v ← z; b ← to_byte v; bs ← to_bytes rest; mret (b :: bs)
  end.

Section Sequences.
Context {A : Type}.

(** [l[i]] with Python's negative indices. *)
Definition py_index (l : list A) (i : Z) : result A :=
  let n := Z.of_nat (length l) in
  let j := if i <? 0 then i + n else i in
  if (j <? 0) || (n <=? j) then Raise IndexError
  else match l !! Z.to_nat j with
       | Some x => Ok x
       | None => Raise IndexError
       end.

(** A slice bound is clamped into [0..len], negative ones counted from the end. *)
Definition slice_bound (n : Z) (dflt : Z) (b : option Z) : Z :=
  match b with
  | None => dflt
  | Some i => if i <? 0 then Z.max (i + n) 0 else Z.min i n
  end.

(** [l[lo:hi]]; never raises. *)
Definition py_slice (l : list A) (lo hi : option Z) : list A :=
  let n := Z.of_nat (length l) in
  let start := slice_bound n 0 lo in
  let stop := slice_bound n n hi in
  take (Z.to_nat (stop - start)) (drop (Z.to_nat start) l).
End Sequences.

(** ** Python floats: IEEE-754 binary64 *)

Definition float : Type := spec_float.
Definition prec : Z := 53.
Definition emax : Z := 1024.

(** [float(k)] for an int [k]: correctly rounded, [OverflowError] when the
    int is too large to convert. *)
Definition float_of_int (k : Z) : result float :=
  match binary_normalize prec emax k 0 false with
  | S754_infinity _ => Raise OverflowError
  | f => Ok f
  end.

(** [x * k] for a float [x] and an int [k]: the int is converted first. *)
Definition float_mul_int (x : float) (k : Z) : result float :=
  y ← float_of_int k; mret (SFmul prec emax x y).

(** The integer nearest to [m * 2^e], ties to the even one. *)
Definition round_half_even (m : positive) (e : Z) : Z :=
  if 0 <=? e then Z.pos m * 2 ^ e
  else
    let d := 2 ^ (- e) in
    let q := Z.pos m / d in
    let r := Z.pos m mod d in
    match 2 * r ?= d with
    | Lt => q
    | Gt => q + 1
    | Eq => if Z.even q then q else q + 1
    end.

(** [round(x)] for a float [x] (no [ndigits]): an int, ties to even. *)
Definition py_round (x : float) : result Z :=
  match x with
  | S754_nan => Raise ValueError
  | S754_infinity _ => Raise OverflowError
  | S754_zero _ => Ok 0
  | S754_finite s m e => Ok (cond_Zopp s (round_half_even m e))
  end.

(** [a / b] for ints: the correctly rounded quotient as a float. *)
Definition int_truediv (a b : Z) : result float :=
  let s := xorb (a <? 0) (b <? 0) in
  if b =? 0 then Raise ZeroDivisionError
  else if a =? 0 then Ok (S754_zero s)
  else
    let '(mz, ez, lz) := SFdiv_core_binary prec emax (Z.abs a) 0 (Z.abs b) 0 in
    match binary_round_aux prec emax s mz ez lz with
    | S754_infinity _ => Raise OverflowError
    | f => Ok f
    end.

(** [x == y] on floats. *)
Definition float_eqb (x y : float) : bool := SFeqb x y.

(** ** Python string formatting and parsing *)

Fixpoint zeros (n : nat) : string :=
  match n with
  | O => ""
  | S n' => String "0" (zeros n')
  end.

Definition zfill (w : nat) (s : string) : string :=
  zeros (w - String.length s) +:+ s.

(** [f"{v:0{w}d}"]: decimal, sign-aware zero padding to width [w]. *)
Definition format_0d (w : nat) (v : Z) : string :=
  let digits := pretty (Z.abs_N v) in
  if v <? 0 then "-" +:+ zfill (w - 1) digits else zfill w digits.

Definition hex_digit (n : Z) : ascii :=
  match String.get (Z.to_nat n) "0123456789ABCDEF" with
  | Some c => c
  | None => "?"%char
  end.

(** [f"{b:02X}"] for a byte [b]. *)
Definition format_02X (b : byte) : string :=
  String (hex_digit (byte_val b / 16)) (String (hex_digit (byte_val b mod 16)) "").

Definition digit_val (c : ascii) : option Z :=
  let n := Z.of_N (N_of_ascii c) in
  if (48 <=? n) && (n <=? 57) then Some (n - 48) else None.

Fixpoint digits_val (s : string) (acc : Z) : option Z :=
  match s with
  | EmptyString => Some acc
  | String c s' => d ← digit_val c; digits_val s' (10 * acc + d)
  end.

Definition is_digit (c : ascii) : bool :=
  match digit_val c with Some _ => true | None => false end.

Fixpoint all_digits (s : string) : bool :=
  match s with
  | EmptyString => true
  | String c s' => is_digit c && all_digits s'
  end.

Definition unsigned_of_str (s : string) : result Z :=
  match s with
  | EmptyString => Raise ValueError
  | _ => match digits_val s 0 with
         | Some v => Ok v
         | None => Raise ValueError
         end
  end.

(** [int(s, 10)] on the strings this program builds: an optional sign and
    at least one decimal digit; anything else is a [ValueError]. *)
Definition int_of_str (s : string) : result Z :=
  match s with
  | String "-" rest => Z.opp <$> unsigned_of_str rest
  | String "+" rest => unsigned_of_str rest
  | _ => unsigned_of_str s
  end.

(** [range(0, stop, 2)] *)
Definition range2 (stop : nat) : list nat :=
  map (fun j => 2 * j)%nat (seq 0 (Nat.div2 (S stop))).

(** ** settings.py *)

Module Settings.
Definition PRICE_DECIMALS : nat := 2.
Definition VOL_DECIMALS : nat := 3.
Definition AMT_DECIMALS : nat := 2.
End Settings.

(** ** utils.py *)

Module Utils.

(** *** calc_crc *)

(** One pass of the inner [for _ in range(8)] body. *)
Definition crc_bit (crc : Z) : Z :=
  let crc :=
    if negb (Z.land crc 0x8000 =? 0)
    then Z.lxor (Z.shiftl crc 1) 0x1021
    else Z.shiftl crc 1 in
  Z.land crc 0xFFFF.

(** One pass of the outer [for b in data] body. *)
Definition crc_byte (crc : Z) (b : byte) : Z :=
  let crc := Z.lxor crc (Z.shiftl (byte_val b) 8) in
  Nat.iter 8 crc_bit crc.

Definition calc_crc (data : list byte) : Z :=
  fold_left crc_byte data 0x0000.

(** *** _int_to_bcd, bcd_pack, bcd_unpack *)

Definition _int_to_bcd (value : Z) (digit_count : nat) : result (list byte) :=
  let s := format_0d digit_count value in
  to_bytes (map (fun i => int_of_str (substring i 2 s)) (range2 digit_count)).

(** [scaled = int(round(number * (10 ** decimals)))] *)
Definition scaled_of (number : float) (decimals : nat) : result Z :=
  x ← float_mul_int number (10 ^ Z.of_nat decimals); py_round x.

Definition bcd_pack (number : float) (decimals length : nat) : result (list byte) :=
  scaled ← scaled_of number decimals;
  let digit_count := (length * 2)%nat in
  _int_to_bcd scaled digit_count.

Definition bcd_digits (bcd : list byte) : string :=
  String.concat "" (map (fun b => format_0d 2 (byte_val b)) bcd).

Definition bcd_unpack (bcd : list byte) (decimals : nat) : result float :=
  let digits := bcd_digits bcd in
  int_val ← int_of_str digits;
  int_truediv int_val (10 ^ Z.of_nat decimals).

End Utils.

(** ** Decoded values and the result dictionary *)

Inductive pyval : Type :=
  | VNone
  | VBool (b : bool)
  | VInt (z : Z)
  | VStr (s : string)
  | VFloat (f : float).

Abbreviation dict := (gmap string pyval).

(** ** The record loop shared by both drivers

    [while i < len(core): trans = core[i]; ln = core[i+1];
     content = core[i+2 : i+2+ln]; <handle>; i += 2 + ln].
    Every pass advances [i] by at least two, so [length core] passes are
    always enough; [decode_loop_unfold] below shows that the fuel is never
    the reason the loop stops. *)

Section RecordLoop.
Variable handle : Z -> list byte -> dict -> result dict.

Fixpoint decode_loop (fuel : nat) (core : list byte) (i : nat) (data : dict)
  : result dict :=
  match fuel with
  | O => Ok data
  | S fuel' =>
      if (i <? length core)%nat then
        trans ← py_index core (Z.of_nat i);
        ln ← py_index core (Z.of_nat i + 1);
        let content :=
          py_slice core (Some (Z.of_nat i + 2))
                        (Some (Z.of_nat i + 2 + byte_val ln)) in
        data' ← handle (byte_val trans) content data;
        decode_loop fuel' core (i + 2 + Z.to_nat (byte_val ln)) data'
      else Ok data
  end.

Definition decode_records (core : list byte) (data : dict) : result dict :=
  decode_loop (length core) core 0 data.
End RecordLoop.

(** ** driver.py *)

Module Driver.

Definition RETURN_STATUS : Z := 0x00.
Definition RETURN_PUMP_PARAMS : Z := 0x02.
Definition RETURN_PUMP_IDENTITY : Z := 0x03.
Definition CD1 : Z := 0x01.

(** The serial port as the driver uses it: [rx] holds the bytes waiting to
    be read, [tx] everything written so far. *)
Record Serial : Type := {
  is_open : bool;
  rx : list byte;
  tx : list byte;
}.

Record MKR5Driver : Type := {
  ser : option Serial;
  _tx_number : Z;
}.

(** [__init__] *)
Definition init : MKR5Driver := {| ser := None; _tx_number := 0 |}.

(** [open] and [close] replace the port and leave the counter alone. *)
Definition with_port (self : MKR5Driver) (port : option Serial) : MKR5Driver :=
  {| ser := port; _tx_number := _tx_number self |}.

Definition _next_tx (self : MKR5Driver) : Z * MKR5Driver :=
  let n := (_tx_number self) mod 0x0F + 1 in
  (n, {| ser := ser self; _tx_number := n |}).

(** [ser.read_until(expected=b"\xFA")]: the bytes up to and including the
    first [0xFA], or all that arrived before the timeout. *)
Fixpoint read_until_FA (inp : list byte) : list byte * list byte :=
  match inp with
  | [] => ([], [])
  | b :: rest =>
      if byte_val b =? 0xFA then ([b], rest)
      else let '(r, rest') := read_until_FA rest in (b :: r, rest')
  end.

(** Lines 53-68 of [send_command]: the block, its CRC and the trailer. *)
Definition build_packet (pump_id txn dcc : Z) : result (list byte) :=
  let addr := 0x50 + pump_id in
  let ctrl := Z.lor 0x80 (Z.shiftl (Z.land txn 0x0F) 4) in
  data3 ← (h ← to_bytes [Ok CD1; Ok 1]; d ← to_bytes [Ok dcc]; mret (h ++ d));
  block ← (h ← to_bytes [Ok addr; Ok ctrl]; mret (h ++ data3));
  let crc := Utils.calc_crc block in
  crc_bytes ← to_bytes [Ok (Z.land crc 0xFF); Ok (Z.land (Z.shiftr crc 8) 0xFF)];
  mret (block ++ crc_bytes ++ [x03; xfa]).

(** [send_command]; [device] is the pump on the line: what it answers to a
    written packet. The counter is advanced before the packet is built, so
    the new driver state is returned also when building fails. *)
Definition send_command (device : list byte -> list byte)
    (self : MKR5Driver) (pump_id dcc : Z) : result (list byte) * MKR5Driver :=
  match ser self with
  | Some port =>
      if is_open port then
        let '(txn, self) := _next_tx self in
        match build_packet pump_id txn dcc with
        | Ok packet =>
            let '(resp, rest) := read_until_FA (device packet) in
            (Ok resp,
             {| ser := Some {| is_open := true; rx := rest;
                               tx := tx port ++ packet |};
                _tx_number := _tx_number self |})
        | Raise e => (Raise e, self)
        end
      else (Raise (RuntimeError "Serial port is not open"), self)
  | None => (Raise (RuntimeError "Serial port is not open"), self)
  end.

(** The driver states a program can reach: built by [__init__], then any
    sequence of port changes, counter allocations and sends. *)
Inductive reachable : MKR5Driver -> Prop :=
  | reachable_init : reachable init
  | reachable_port self port :
      reachable self -> reachable (with_port self port)
  | reachable_next self :
      reachable self -> reachable (snd (_next_tx self))
  | reachable_send device self pump_id dcc :
      reachable self -> reachable (snd (send_command device self pump_id dcc)).

Definition status_name (st : Z) : string :=
  match st with
  | 0 => "NOT_PROGRAMMED"
  | 1 => "RESET"
  | 2 => "AUTHORIZED"
  | 4 => "FILLING"
  | 5 => "FILLING_COMPLETE"
  | 6 => "MAX_REACHED"
  | 7 => "SWITCHED_OFF"
  | _ => "UNKNOWN(" +:+ pretty st +:+ ")"
  end.

(** [for idx, b in enumerate(grade_bytes): if b != 0: grades |= 1 << idx] *)
Definition grades_of (grade_bytes : list byte) : Z :=
  fold_left
    (fun grades '(idx, b) =>
       if byte_val b =? 0 then grades
       else Z.lor grades (Z.shiftl 1 (Z.of_nat idx)))
    (combine (seq 0 (length grade_bytes)) grade_bytes) 0.

(** The body of the [while] loop between the slicing and [i += 2 + ln]. *)
Definition handle (trans : Z) (content : list byte) (data : dict) : result dict :=
  if trans =? 0x01 then
    st ← py_index content 0;
    mret (<["pump_status" := VStr (status_name (byte_val st))]> data)
  else if trans =? 0x02 then
    vol ← Utils.bcd_unpack (py_slice content (Some 0) (Some 4)) Settings.VOL_DECIMALS;
    amt ← Utils.bcd_unpack (py_slice content (Some 4) (Some 8)) Settings.AMT_DECIMALS;
    mret (<["current_amount" := VFloat amt]>
            (<["current_volume" := VFloat vol]> data))
  else if trans =? 0x03 then
    price ← Utils.bcd_unpack (py_slice content (Some 0) (Some 3)) Settings.PRICE_DECIMALS;
    c3 ← py_index content 3;
    let noz := Z.land (byte_val c3) 0x0F in
    let outf := negb (Z.shiftr (Z.land (byte_val c3) 0x10) 4 =? 0) in
    mret (<["current_price" := VFloat price]>
            (<["nozzle_out" := VBool outf]>
               (<["current_nozzle" := if noz =? 0 then VNone else VInt noz]> data)))
  else if trans =? 0x07 then
    let grade_bytes := py_slice content (Some (-15)) None in
    mret (<["grades_mask" := VInt (grades_of grade_bytes)]> data)
  else if trans =? 0x09 then
    let pid := String.concat "" (map format_02X content) in
    mret (<["pump_identity" := VStr pid]> data)
  else Ok data.

Definition parse_response (resp : list byte) : result dict :=
  let data : dict := ∅ in
  let core := py_slice resp (Some 2) (Some (-2)) in
  lo ← py_index core (-2);
  hi ← py_index core (-1);
  let recv_crc := Z.lor (byte_val lo) (Z.shiftl (byte_val hi) 8) in
  let calc := Utils.calc_crc (py_slice resp (Some 0) (Some (-4))) in
  if negb (recv_crc =? calc) then Raise (RuntimeError "CRC mismatch")
  else decode_records handle core data.

End Driver.

(** ** serial_io/driver.py *)

Module SerialIO.

(** This module imports [serial_io], [logging] and three names of [utils];
    the name [settings] is bound nowhere in it, so evaluating an attribute
    of [settings] raises [NameError]. *)
Definition settings_attr (value : nat) : result nat :=
  Raise (NameError "settings").

Definition status_map (status_code : Z) : string :=
  match status_code with
  | 0 => "PUMP NOT PROGRAMMED"
  | 1 => "RESET"
  | 2 => "AUTHORIZED"
  | 4 => "FILLING"
  | 5 => "FILLING COMPLETE"
  | 6 => "MAX REACHED"
  | 7 => "SWITCHED OFF"
  | _ => "UNKNOWN(" +:+ pretty status_code +:+ ")"
  end.

Definition handle (trans_code : Z) (content : list byte) (data : dict) : result dict :=
  if trans_code =? 0x01 then
    status_code ← py_index content 0;
    mret (<["pump_status" := VStr (status_map (byte_val status_code))]>
            (<["pump_status_code" := VInt (byte_val status_code)]> data))
  else if trans_code =? 0x03 then
    if (4 <=? length content)%nat then
      let price_bcd := py_slice content (Some 0) (Some 3) in
      nozzle_info ← py_index content 3;
      price ← (d ← settings_attr Settings.PRICE_DECIMALS; Utils.bcd_unpack price_bcd d);
      let nozzle_num := Z.land (byte_val nozzle_info) 0x0F in
      let nozzle_out := Z.shiftr (Z.land (byte_val nozzle_info) 0x10) 4 in
      mret (<["current_price" := VFloat price]>
              (<["nozzle_out" := VBool (negb (nozzle_out =? 0))]>
                 (<["current_nozzle" :=
                      if negb (nozzle_num =? 0) then VInt nozzle_num else VNone]> data)))
    else Ok data
  else if trans_code =? 0x02 then
    let vol_bcd := py_slice content (Some 0) (Some 4) in
    let amt_bcd := py_slice content (Some 4) (Some 8) in
    volume ← (d ← settings_attr Settings.VOL_DECIMALS; Utils.bcd_unpack vol_bcd d);
    amount ← (d ← settings_attr Settings.AMT_DECIMALS; Utils.bcd_unpack amt_bcd d);
    mret (<["current_amount" := VFloat amount]>
            (<["current_volume" := VFloat volume]> data))
  else Ok data.

Definition parse_response (response : list byte) : result dict :=
  let data : dict := ∅ in
  if (length response <? 5)%nat then Ok data
  else
    r2 ← py_index response (-2);
    ends_ok ← (if byte_val r2 =? 0x03
               then r1 ← py_index response (-1); mret (byte_val r1 =? 0xFA)
               else mret false);
    let core_data :=
      if ends_ok : bool then py_slice response None (Some (-2)) else response in
    recv_crc_low ← py_index core_data (-2);
    recv_crc_high ← py_index core_data (-1);
    let core_wo_crc := py_slice core_data None (Some (-2)) in
    let calc := Utils.calc_crc core_wo_crc in
    let data :=
      if negb (Z.land calc 0xFF =? byte_val recv_crc_low)
         || negb (Z.land (Z.shiftr calc 8) 0xFF =? byte_val recv_crc_high)
      then <["error" := VStr "CRC_ERROR"]> data
      else data in
    adr ← py_index core_wo_crc 0;
    ctrl ← py_index core_wo_crc 1;
    let payload := py_slice core_wo_crc (Some 2) None in
    decode_records handle payload data.

(** The driver object of this module: only the port, no block counter. *)
Record MKR5Driver : Type := {
  ser : option Driver.Serial;
}.

(** The packet of [send_command]: address, control byte taken from the pump
    index, the start delimiter [0xF1], the caller's transaction bytes, the
    CRC of all of that low byte first, and [0x03 0xFA]. *)
Definition build_packet (pump_id : Z) (transactions : list byte)
  : result (list byte) :=
  let addr := 0x50 + pump_id in
  let ctrl := Z.lor 0x80 (Z.land pump_id 0x0F) in
  packet ← to_bytes [Ok addr; Ok ctrl];
  let SD := xf1 in
  let packet := packet ++ ([SD] ++ transactions) in
  let crc_value := Utils.calc_crc packet in
  let crc_low := Z.land crc_value 0xFF in
  let crc_high := Z.land (Z.shiftr crc_value 8) 0xFF in
  crc ← to_bytes [Ok crc_low; Ok crc_high];
  let packet := packet ++ crc in
  mret (packet ++ [x03; xfa]).

(** [send_command]: the input buffer is not reset before the write, so the
    read starts with whatever was already waiting in it. *)
Definition send_command (device : list byte -> list byte)
    (self : MKR5Driver) (pump_id : Z) (transactions : list byte)
  : result (list byte) * MKR5Driver :=
  match ser self with
  | Some port =>
      if Driver.is_open port then
        match build_packet pump_id transactions with
        | Ok packet =>
            let '(response, rest) :=
              Driver.read_until_FA (Driver.rx port ++ device packet) in
            (Ok response,
             {| ser := Some {| Driver.is_open := true; Driver.rx := rest;
                               Driver.tx := Driver.tx port ++ packet |} |})
        | Raise e => (Raise e, self)
        end
      else (Raise (RuntimeError "Serial port is not open"), self)
  | None => (Raise (RuntimeError "Serial port is not open"), self)
  end.

End SerialIO.

(** ** The checksum as section 4.1 of the specification words it

    A 16-bit register starting at [0x0000]; each input byte is XORed into
    the high byte of the register, then eight times: if the top bit is set,
    shift left and XOR with the polynomial, else shift left, masked to 16
    bits after each step; no final XOR. *)

Module Spec.

Definition polynomial : Z := 0x1021.

Definition mask16 (reg : Z) : Z := reg mod 2 ^ 16.

Definition top_bit (reg : Z) : bool := Z.testbit reg 15.

Definition xor_into_high_byte (reg : Z) (b : byte) : Z :=
  Z.lxor (reg / 2 ^ 8) (byte_val b) * 2 ^ 8 + reg mod 2 ^ 8.

Definition shift_step (reg : Z) : Z :=
  if top_bit reg then mask16 (Z.lxor (2 * reg) polynomial)
  else mask16 (2 * reg).

Fixpoint repeat_step (n : nat) (reg : Z) : Z :=
  match n with
  | O => reg
  | S n' => repeat_step n' (shift_step reg)
  end.

Fixpoint checksum_from (reg : Z) (bs : list byte) : Z :=
  match bs with
  | [] => reg
  | b :: rest => checksum_from (repeat_step 8 (xor_into_high_byte reg b)) rest
  end.

Definition checksum (bs : list byte) : Z := checksum_from 0x0000 bs.

End Spec.

(** ** Transactions on the wire: [code, length, payload...] *)

Record transaction : Type := {
  tx_code : byte;
  tx_len : byte;
  tx_payload : list byte;
}.

Definition wire (t : transaction) : list byte :=
  tx_code t :: tx_len t :: tx_payload t.

Definition wire_all (ts : list transaction) : list byte :=
  concat (map wire ts).

(** The length field counts exactly the payload bytes. *)
Definition in_bounds (t : transaction) : Prop :=
  byte_val (tx_len t) = Z.of_nat (length (tx_payload t)).

(** Handling a list of transactions one after the other, as the loop does
    for complete records. *)
Fixpoint handle_all (handle : Z -> list byte -> dict -> result dict)
    (ts : list transaction) (data : dict) : result dict :=
  match ts with
  | [] => Ok data
  | t :: rest =>
      handle (byte_val (tx_code t)) (tx_payload t) data ≫= handle_all handle rest
  end.

(** The value of an uppercase hexadecimal digit, to read identities back. *)
Definition hex_val (c : ascii) : Z :=
  let n := Z.of_N (N_of_ascii c) in
  if (48 <=? n) && (n <=? 57) then n - 48 else n - 55.

(** ** Float constants used in the examples *)

Definition f10000 : float := S754_finite false 5497558138880000 (-39).

(* BEGIN THEOREMS *)

(** * Properties *)

Arguments Utils.calc_crc : simpl never.
Arguments Utils.crc_byte : simpl never.

(** ** Python sequences *)

Lemma byte_val_range (b : byte) : 0 <= byte_val b <= 255.
Proof.
  unfold byte_val. pose proof (Byte.to_N_bounded b). lia.
Qed.

Lemma to_byte_val (b : byte) : to_byte (byte_val b) = Ok b.
Proof.
  unfold to_byte, byte_val.
  destruct (Z.ltb_spec (Z.of_N (Byte.to_N b)) 0); [lia|].
  by rewrite N2Z.id, Byte.of_to_N.
Qed.

Lemma to_byte_Ok (z : Z) (b : byte) : to_byte z = Ok b -> byte_val b = z.
Proof.
  unfold to_byte, byte_val. destruct (Z.ltb_spec z 0); [discriminate|].
  destruct (Byte.of_N (Z.to_N z)) as [b'|] eqn:E; [|discriminate].
  intros [= <-]. apply Byte.to_of_N in E. rewrite E. lia.
Qed.

Lemma py_index_nat {A} (l : list A) (i : nat) :
  py_index l (Z.of_nat i) =
  match l !! i with Some x => Ok x | None => Raise IndexError end.
Proof.
  unfold py_index. cbv zeta.
  assert ((Z.of_nat i <? 0) = false) as E0 by (apply Z.ltb_ge; lia).
  rewrite E0. cbn iota. rewrite E0.
  destruct (Z.leb_spec (Z.of_nat (length l)) (Z.of_nat i)); simpl.
  - rewrite lookup_ge_None_2; [done | lia].
  - rewrite Nat2Z.id. destruct (l !! i) eqn:E; [done|].
    apply lookup_ge_None in E. lia.
Qed.

Lemma py_slice_nat {A} (l : list A) (a b : nat) :
  py_slice l (Some (Z.of_nat a)) (Some (Z.of_nat b)) = take (b - a) (drop a l).
Proof.
  unfold py_slice, slice_bound. cbv zeta.
  replace (Z.of_nat a <? 0) with false by (symmetry; apply Z.ltb_ge; lia).
  replace (Z.of_nat b <? 0) with false by (symmetry; apply Z.ltb_ge; lia).
  destruct (decide (a <= length l)%nat) as [Ha|Ha].
  - rewrite (Z.min_l (Z.of_nat a)) by lia. rewrite Nat2Z.id.
    destruct (decide (b <= length l)%nat).
    + rewrite Z.min_l by lia. f_equal. lia.
    + rewrite Z.min_r by lia.
      rewrite !take_ge; [done | rewrite length_drop; lia | rewrite length_drop; lia].
  - rewrite (Z.min_r (Z.of_nat a)) by lia. rewrite Nat2Z.id.
    rewrite !drop_ge by lia. by rewrite !take_nil.
Qed.

(** ** C9: the cyclic sequence counter *)

Lemma _next_tx_range (self : Driver.MKR5Driver) :
  1 <= fst (Driver._next_tx self) <= 15.
Proof.
  unfold Driver._next_tx; simpl.
  pose proof (Z.mod_pos_bound (Driver._tx_number self) 15). lia.
Qed.

Lemma _next_tx_stored (self : Driver.MKR5Driver) :
  Driver._tx_number (snd (Driver._next_tx self)) = fst (Driver._next_tx self).
Proof. reflexivity. Qed.

Lemma send_command_counter device self pump_id dcc :
  Driver._tx_number (snd (Driver.send_command device self pump_id dcc))
  = Driver._tx_number self
  \/ Driver._tx_number (snd (Driver.send_command device self pump_id dcc))
     = fst (Driver._next_tx self).
Proof.
  unfold Driver.send_command.
  destruct (Driver.ser self) as [port|]; [|by left].
  destruct (Driver.is_open port); [|by left].
  simpl. destruct (Driver.build_packet _ _ _); simpl.
  - destruct (Driver.read_until_FA _). by right.
  - by right.
Qed.

Lemma reachable_counter (self : Driver.MKR5Driver) :
  Driver.reachable self -> 0 <= Driver._tx_number self <= 15.
Proof.
  induction 1 as [|self port _ IH|self _ IH|device self pump_id dcc _ IH].
  - simpl. lia.
  - exact IH.
  - rewrite _next_tx_stored. pose proof (_next_tx_range self). lia.
  - destruct (send_command_counter device self pump_id dcc) as [-> | ->].
    + exact IH.
    + pose proof (_next_tx_range self). lia.
Qed.

(** C9. In every reachable driver state the stored counter is in 0..15 and
    the number [_next_tx] allocates is in 1..15; after a counter value in
    1..14 the allocated number is the next one, after 15 it wraps to 1,
    and the first number allocated after [__init__] (counter 0) is 1. *)
Theorem next_tx_cyclic (self : Driver.MKR5Driver) :
  Driver.reachable self ->
  1 <= fst (Driver._next_tx self) <= 15
  /\ Driver._tx_number (snd (Driver._next_tx self)) = fst (Driver._next_tx self)
  /\ (1 <= Driver._tx_number self <= 14 ->
      fst (Driver._next_tx self) = Driver._tx_number self + 1)
  /\ (Driver._tx_number self = 15 -> fst (Driver._next_tx self) = 1)
  /\ fst (Driver._next_tx Driver.init) = 1.
Proof.
  intros Hr. pose proof (reachable_counter self Hr) as Hc.
  split; [apply _next_tx_range|]. split; [reflexivity|].
  unfold Driver._next_tx; simpl. repeat split.
  - intros H. rewrite Z.mod_small by lia. reflexivity.
  - intros ->. reflexivity.
Qed.

Lemma next_tx_cyclic_witness :
  Driver.reachable (snd (Driver._next_tx Driver.init))
  /\ fst (Driver._next_tx (snd (Driver._next_tx Driver.init))) = 2.
Proof.
  split.
  - apply Driver.reachable_next, Driver.reachable_init.
  - pose proof (next_tx_cyclic (snd (Driver._next_tx Driver.init))
                  (Driver.reachable_next _ Driver.reachable_init)) as H.
    destruct H as (_ & _ & H & _). apply H. vm_compute. split; discriminate.
Defined.


(** ** C2: the checksum engine *)

Lemma land_0xFFFF (x : Z) : Z.land x 0xFFFF = x mod 2 ^ 16.
Proof. change 0xFFFF with (Z.ones 16). apply Z.land_ones. lia. Qed.

Lemma land_0x8000 (x : Z) : (Z.land x 0x8000 =? 0) = negb (Z.testbit x 15).
Proof.
  change 0x8000 with (2 ^ 15).
  destruct (Z.testbit x 15) eqn:Hb; simpl.
  - apply Z.eqb_neq. intros H0.
    assert (Z.testbit (Z.land x (2 ^ 15)) 15 = false) as Hf
      by (rewrite H0; apply Z.bits_0).
    rewrite Z.land_spec, Hb, Z.pow2_bits_true in Hf by lia. discriminate.
  - apply Z.eqb_eq. apply Z.bits_inj'. intros n Hn.
    rewrite Z.land_spec, Z.bits_0, Z.pow2_bits_eqb by lia.
    destruct (Z.eqb_spec 15 n) as [<-|]; [by rewrite Hb | apply andb_false_r].
Qed.

Lemma crc_bit_spec (reg : Z) : Utils.crc_bit reg = Spec.shift_step reg.
Proof.
  unfold Utils.crc_bit, Spec.shift_step, Spec.top_bit, Spec.mask16, Spec.polynomial.
  rewrite land_0x8000, negb_involutive, land_0xFFFF.
  rewrite Z.shiftl_mul_pow2 by lia. change (2 ^ 1) with 2.
  rewrite (Z.mul_comm reg 2). by destruct (Z.testbit reg 15).
Qed.

Lemma xor_high_byte_spec (reg : Z) (b : byte) :
  Z.lxor reg (Z.shiftl (byte_val b) 8) = Spec.xor_into_high_byte reg b.
Proof.
  unfold Spec.xor_into_high_byte.
  set (hi := Z.lxor (reg / 2 ^ 8) (byte_val b)).
  assert (Z.land (Z.shiftl hi 8) (reg mod 2 ^ 8) = 0) as Hdisj.
  { apply Z.bits_inj'. intros n Hn. rewrite Z.land_spec, Z.bits_0.
    destruct (Z.ltb_spec n 8).
    - rewrite Z.shiftl_spec_low by lia. reflexivity.
    - rewrite Z.mod_pow2_bits_high by lia. apply andb_false_r. }
  rewrite <- Z.shiftl_mul_pow2 by lia.
  rewrite Z.add_nocarry_lxor by exact Hdisj.
  apply Z.bits_inj'. intros n Hn. rewrite !Z.lxor_spec.
  destruct (Z.ltb_spec n 8).
  - rewrite !Z.shiftl_spec_low by lia.
    rewrite Z.mod_pow2_bits_low by lia. by rewrite xorb_false_r.
  - rewrite !Z.shiftl_spec by lia. rewrite Z.mod_pow2_bits_high by lia.
    unfold hi. rewrite Z.lxor_spec, <- Z.shiftr_div_pow2 by lia.
    rewrite Z.shiftr_spec by lia. replace (n - 8 + 8) with n by lia.
    by rewrite xorb_false_r.
Qed.

Lemma crc_byte_spec (reg : Z) (b : byte) :
  Utils.crc_byte reg b = Spec.repeat_step 8 (Spec.xor_into_high_byte reg b).
Proof.
  unfold Utils.crc_byte. rewrite xor_high_byte_spec. simpl.
  by rewrite !crc_bit_spec.
Qed.

Lemma crc_fold_spec (data : list byte) (reg : Z) :
  fold_left Utils.crc_byte data reg = Spec.checksum_from reg data.
Proof.
  revert reg. induction data as [|b data IH]; intros reg; simpl; [done|].
  by rewrite IH, crc_byte_spec.
Qed.

Lemma crc_bit_range (reg : Z) : 0 <= Utils.crc_bit reg <= 0xFFFF.
Proof.
  unfold Utils.crc_bit. rewrite land_0xFFFF.
  pose proof (Z.mod_pos_bound
    (if negb (Z.land reg 0x8000 =? 0)
     then Z.lxor (Z.shiftl reg 1) 0x1021 else Z.shiftl reg 1) (2 ^ 16)).
  lia.
Qed.

Lemma crc_byte_range (reg : Z) (b : byte) : 0 <= Utils.crc_byte reg b <= 0xFFFF.
Proof. unfold Utils.crc_byte. simpl. apply crc_bit_range. Qed.

Lemma calc_crc_range (data : list byte) : 0 <= Utils.calc_crc data <= 0xFFFF.
Proof.
  unfold Utils.calc_crc.
  induction data as [|b data IH] using rev_ind; [simpl; lia|].
  rewrite fold_left_app. simpl. apply crc_byte_range.
Qed.

(** C2. For every byte sequence, [calc_crc] equals the checksum worded in
    section 4.1 (register [0x0000], byte XORed into the high byte, eight
    conditional shift-and-XOR steps with polynomial [0x1021], masked to 16
    bits, no final XOR), and the result is in [0..0xFFFF]. *)
Theorem calc_crc_reference (b : list byte) :
  Utils.calc_crc b = Spec.checksum b /\ 0 <= Utils.calc_crc b <= 0xFFFF.
Proof.
  split.
  - unfold Utils.calc_crc, Spec.checksum. apply crc_fold_spec.
  - apply calc_crc_range.
Qed.

Example calc_crc_check_value :
  Utils.calc_crc [x31; x32; x33; x34; x35; x36; x37; x38; x39] = 0x31C3.
Proof. reflexivity. Qed.

(** ** C1: the framed status query *)

Lemma to_bytes_vals (bs : list byte) :
  to_bytes (map (fun b => Ok (byte_val b)) bs) = Ok bs.
Proof.
  induction bs as [|b bs IH]; [done|]. simpl.
  unfold mbind, result_bind. rewrite to_byte_val, IH. done.
Qed.

Lemma byte_val_inj (a b : byte) : byte_val a = byte_val b -> a = b.
Proof.
  intros H. pose proof (to_byte_val a) as Ha. rewrite H, to_byte_val in Ha.
  by injection Ha.
Qed.

Lemma bind_Ok {A B} (m : result A) (f : A -> result B) (y : B) :
  m ≫= f = Ok y -> exists a, m = Ok a /\ f a = Ok y.
Proof. destruct m as [a|e]; [by exists a | discriminate]. Qed.

Lemma to_bytes_one (z : Z) (bs : list byte) :
  to_bytes [Ok z] = Ok bs -> exists b, bs = [b] /\ byte_val b = z.
Proof.
  cbn [to_bytes]. intros H.
  apply bind_Ok in H as (v & [= <-] & H).
  apply bind_Ok in H as (b & Hb & H).
  apply bind_Ok in H as (r & [= <-] & [= <-]).
  exists b. split; [done | by apply to_byte_Ok].
Qed.

Lemma to_bytes_two (z1 z2 : Z) (bs : list byte) :
  to_bytes [Ok z1; Ok z2] = Ok bs ->
  exists b1 b2, bs = [b1; b2] /\ byte_val b1 = z1 /\ byte_val b2 = z2.
Proof.
  cbn [to_bytes]. intros H.
  apply bind_Ok in H as (v & [= <-] & H).
  apply bind_Ok in H as (b1 & Hb1 & H).
  apply bind_Ok in H as (r & H2 & [= <-]).
  apply (to_bytes_one z2) in H2 as (b2 & -> & Hb2).
  exists b1, b2. repeat split; [by apply to_byte_Ok | done].
Qed.

(** Whatever [build_packet] returns is [ADDR CTRL 0x01 0x01 DCC] followed by
    the CRC of exactly those five bytes, low byte first, and [0x03 0xFA]. *)
Lemma build_packet_layout (pump_id txn dcc : Z) (packet : list byte) :
  Driver.build_packet pump_id txn dcc = Ok packet ->
  exists addr ctrl d lo hi,
    packet = [addr; ctrl; x01; x01; d] ++ [lo; hi] ++ [x03; xfa]
    /\ byte_val addr = 0x50 + pump_id
    /\ byte_val ctrl = Z.lor 0x80 (Z.shiftl (Z.land txn 0x0F) 4)
    /\ byte_val d = dcc
    /\ byte_val lo = Utils.calc_crc [addr; ctrl; x01; x01; d] mod 256
    /\ byte_val hi = Utils.calc_crc [addr; ctrl; x01; x01; d] / 256.
Proof.
  unfold Driver.build_packet, Driver.CD1. intros H.
  apply bind_Ok in H as (data3 & H3 & H).
  apply bind_Ok in H3 as (h3 & Hh3 & H3).
  apply bind_Ok in H3 as (d3 & Hd3 & [= <-]).
  apply bind_Ok in H as (block & Hb & H).
  apply bind_Ok in Hb as (hb & Hhb & [= <-]).
  apply bind_Ok in H as (crc_bytes & Hc & [= <-]).
  apply to_bytes_two in Hh3 as (c1 & c2 & -> & Hc1 & Hc2).
  apply to_bytes_one in Hd3 as (d & -> & Hd).
  apply to_bytes_two in Hhb as (addr & ctrl & -> & Haddr & Hctrl).
  apply to_bytes_two in Hc as (lo & hi & -> & Hlo & Hhi).
  assert (c1 = x01) as -> by (apply byte_val_inj; rewrite Hc1; reflexivity).
  assert (c2 = x01) as -> by (apply byte_val_inj; rewrite Hc2; reflexivity).
  exists addr, ctrl, d, lo, hi.
  change ([addr; ctrl] ++ [x01; x01] ++ [d]) with [addr; ctrl; x01; x01; d] in *.
  pose proof (calc_crc_range [addr; ctrl; x01; x01; d]) as Hr.
  repeat split; try done.
  - rewrite Hlo. change 0xFF with (Z.ones 8). by rewrite Z.land_ones by lia.
  - rewrite Hhi. change 0xFF with (Z.ones 8). rewrite Z.land_ones by lia.
    rewrite Z.shiftr_div_pow2 by lia. apply Z.mod_small.
    change (2 ^ 8) with 256. split; [apply Z.div_pos; lia|].
    apply Z.div_lt_upper_bound; lia.
Qed.

(** C1. Pump index 1, a fresh driver with an open port (so the allocated
    sequence number is 1) and the status query: the packet written to the
    port is [51 90 01 01 00 FD 7D 03 FA]: address [0x50 + 1], control
    [0x80 | ((1 & 0x0F) << 4) = 0x90], the transaction [01 01 00], the CRC
    of the first five bytes ([0x7DFD]) low byte first, then [03 FA]. *)
Theorem send_command_golden_vector
    (device : list byte -> list byte) (rx0 tx0 : list byte) :
  let port := {| Driver.is_open := true; Driver.rx := rx0; Driver.tx := tx0 |} in
  let self := Driver.with_port Driver.init (Some port) in
  let block := [x51; x90; x01; x01; x00] in
  let crc := Utils.calc_crc block in
  fst (Driver._next_tx self) = 1
  /\ byte_val x51 = 0x50 + 1
  /\ byte_val x90 = Z.lor 0x80 (Z.shiftl (Z.land 1 0x0F) 4)
  /\ crc = 0x7DFD
  /\ to_bytes [Ok (Z.land crc 0xFF); Ok (Z.land (Z.shiftr crc 8) 0xFF)] = Ok [xfd; x7d]
  /\ Driver.build_packet 1 1 Driver.RETURN_STATUS
     = Ok (block ++ [xfd; x7d] ++ [x03; xfa])
  /\ Driver.tx <$> Driver.ser (snd (Driver.send_command device self 1 Driver.RETURN_STATUS))
     = Some (tx0 ++ [x51; x90; x01; x01; x00; xfd; x7d; x03; xfa]).
Proof.
  intros port self block crc.
  repeat (split; [reflexivity|]).
  unfold Driver.send_command, self, port.
  cbn [Driver.ser Driver.with_port Driver.is_open Driver.init Driver._tx_number].
  change (Driver._next_tx _)
    with (1, {| Driver.ser := Some {| Driver.is_open := true; Driver.rx := rx0;
                                      Driver.tx := tx0 |};
                Driver._tx_number := 1 |}).
  cbv iota beta.
  change (Driver.build_packet 1 1 Driver.RETURN_STATUS)
    with (Ok (A:=list byte) [x51; x90; x01; x01; x00; xfd; x7d; x03; xfa]).
  cbv iota beta.
  destruct (Driver.read_until_FA _). reflexivity.
Qed.

(** ** Decimal strings *)

Lemma str_app_cons (c : ascii) (s t : string) :
  String c s +:+ t = String c (s +:+ t).
Proof. reflexivity. Qed.

Lemma str_app_nil_l (t : string) : "" +:+ t = t.
Proof. reflexivity. Qed.

Lemma str_app_nil_r (s : string) : s +:+ "" = s.
Proof. induction s as [|c s IH]; [done | by rewrite str_app_cons, IH]. Qed.

Lemma str_app_assoc (s1 s2 s3 : string) : (s1 +:+ s2) +:+ s3 = s1 +:+ (s2 +:+ s3).
Proof.
  induction s1 as [|c s1 IH]; [done | by rewrite !str_app_cons, IH].
Qed.

Lemma str_length_app (s1 s2 : string) :
  String.length (s1 +:+ s2) = (String.length s1 + String.length s2)%nat.
Proof.
  induction s1 as [|c s1 IH]; [done|].
  rewrite str_app_cons. simpl. by rewrite IH.
Qed.

Lemma all_digits_app (s1 s2 : string) :
  all_digits (s1 +:+ s2) = all_digits s1 && all_digits s2.
Proof.
  induction s1 as [|c s1 IH]; [done|].
  rewrite str_app_cons. simpl. rewrite IH. by rewrite andb_assoc.
Qed.


Lemma concat_cons (x : string) (xs : list string) :
  String.concat "" (x :: xs) = x +:+ String.concat "" xs.
Proof.
  destruct xs as [|y ys]; [|reflexivity].
  cbn [String.concat]. by rewrite str_app_nil_r.
Qed.

Lemma zeros_digits (n : nat) : all_digits (zeros n) = true.
Proof. induction n; simpl; [done | exact IHn]. Qed.

Lemma zeros_length (n : nat) : String.length (zeros n) = n.
Proof. induction n; simpl; [done | by rewrite IHn]. Qed.

Lemma digits_val_app (s1 s2 : string) (acc : Z) :
  digits_val (s1 +:+ s2) acc = digits_val s1 acc ≫= digits_val s2.
Proof.
  revert acc. induction s1 as [|c s1 IH]; intros acc; [done|].
  rewrite str_app_cons. simpl.
  destruct (digit_val c); simpl; [apply IH | done].
Qed.


Lemma pretty_N_char_val (x : N) :
  (x < 10)%N -> digit_val (pretty_N_char x) = Some (Z.of_N x).
Proof.
  intros H.
  assert (x = 0 \/ x = 1 \/ x = 2 \/ x = 3 \/ x = 4 \/ x = 5 \/ x = 6
          \/ x = 7 \/ x = 8 \/ x = 9)%N as Hx by lia.
  repeat (destruct Hx as [-> | Hx]; [reflexivity|]). by subst.
Qed.

(** The digits that [pretty_N_go] puts in front of its accumulator: all
    decimal digits, at most [w] of them below [10^w], and read back by
    [digits_val] as the number itself. *)
Lemma pretty_N_go_spec (x : N) (s : string) :
  exists p,
    pretty_N_go x s = p +:+ s
    /\ all_digits p = true
    /\ (forall acc, digits_val p acc
                    = Some (acc * 10 ^ Z.of_nat (String.length p) + Z.of_N x))
    /\ (forall w : nat, Z.of_N x < 10 ^ Z.of_nat w -> (String.length p <= w)%nat)
    /\ (x <> 0%N -> p <> "").
Proof.
  revert s. induction (N.lt_wf_0 x) as [x _ IH]. intros s.
  destruct (N.eq_dec x 0%N) as [->|Hx].
  - exists "". rewrite pretty_N_go_0. repeat split; simpl; try done.
    + intros acc. f_equal. lia.
    + intros w _. lia.
  - rewrite pretty_N_go_step by lia.
    destruct (IH (x `div` 10)%N) with (s := String (pretty_N_char (x `mod` 10)) s)
      as (p & Hp & Hd & Hv & Hl & _).
    { apply N.div_lt; lia. }
    exists (p +:+ String (pretty_N_char (x `mod` 10)) "").
    assert (x `mod` 10 < 10)%N as Hm by (apply N.mod_lt; lia).
    pose proof (N.div_mod x 10 ltac:(lia)) as Hdm.
    repeat split.
    + rewrite Hp, str_app_assoc. reflexivity.
    + rewrite all_digits_app, Hd. simpl. unfold is_digit.
      by rewrite pretty_N_char_val.
    + intros acc. rewrite digits_val_app, Hv. simpl.
      rewrite pretty_N_char_val by done. simpl. f_equal.
      rewrite str_length_app. simpl.
      rewrite Nat2Z.inj_add, Z.pow_add_r by lia. change (10 ^ Z.of_nat 1) with 10.
      lia.
    + intros w Hw. rewrite str_length_app. simpl.
      destruct w as [|w]; [simpl in Hw; lia|].
      assert (String.length p <= w)%nat; [|lia]. apply Hl.
      rewrite Nat2Z.inj_succ, Z.pow_succ_r in Hw by lia.
      rewrite N2Z.inj_div. apply Z.div_lt_upper_bound; lia.
    + intros _. by destruct p.
Qed.

(** [f"{k:0{w}d}"] for [k >= 0]: digits only, at least [w] of them. *)
Lemma format_0d_nonneg (w : nat) (k : Z) :
  0 <= k ->
  all_digits (format_0d w k) = true
  /\ (w <= String.length (format_0d w k))%nat
  /\ format_0d w k <> "".
Proof.
  intros Hk. unfold format_0d.
  replace (k <? 0) with false by (symmetry; apply Z.ltb_ge; lia).
  unfold zfill, pretty, pretty_N.
  set (x := Z.abs_N k).
  assert (exists p, (if decide (x = 0%N) then "0" else pretty_N_go x "") = p
                    /\ all_digits p = true /\ p <> "") as (p & -> & Hd & Hne).
  { destruct (decide (x = 0%N)) as [|Hx]; [by exists "0"|].
    destruct (pretty_N_go_spec x "") as (p & Hp & Hd & _ & _ & Hne).
    exists (pretty_N_go x ""). rewrite Hp, str_app_nil_r. auto. }
  repeat split.
  - by rewrite all_digits_app, zeros_digits, Hd.
  - rewrite str_length_app, zeros_length. lia.
  - destruct (zeros _); [done | discriminate].
Qed.


(** ** The byte layer of the BCD codec *)

(** A pair of decimal digits goes to the byte whose value is the two-digit
    number, and that byte is rendered back as the same pair. *)
Lemma digit_pair_byte (a b : ascii) :
  is_digit a = true -> is_digit b = true ->
  exists v byte,
    int_of_str (String a (String b "")) = Ok v
    /\ to_byte v = Ok byte
    /\ 0 <= byte_val byte <= 99
    /\ format_0d 2 (byte_val byte) = String a (String b "").
Proof.
  intros Ha Hb.
  destruct a as [[] [] [] [] [] [] [] []]; try discriminate Ha;
  destruct b as [[] [] [] [] [] [] [] []]; try discriminate Hb;
  eexists _, _; (split; [vm_compute; reflexivity|]);
  (split; [vm_compute; reflexivity|]);
  (split; [vm_compute; split; discriminate|]); vm_compute; reflexivity.
Qed.

Lemma range2_even (n : nat) :
  range2 (2 * n) = map (fun j => 2 * j)%nat (seq 0 n).
Proof. unfold range2. by rewrite Nat.div2_succ_double. Qed.

(** The generator of [_int_to_bcd] over a digit string: it consumes the
    first [2 * n] characters pair by pair, and the bytes it yields are
    rendered back by [bcd_digits] as exactly those characters. *)
Lemma digit_pairs_bytes (n : nat) (s : string) :
  all_digits s = true -> (2 * n <= String.length s)%nat ->
  exists bs,
    to_bytes (map (fun i => int_of_str (substring i 2 s))
                  (map (fun j => 2 * j)%nat (seq 0 n))) = Ok bs
    /\ length bs = n
    /\ Forall (fun b => 0 <= byte_val b <= 99) bs
    /\ Utils.bcd_digits bs = substring 0 (2 * n) s.
Proof.
  revert s. induction n as [|n IH]; intros s Hd Hl.
  - exists []. repeat split; [constructor | by destruct s].
  - destruct s as [|a [|b s]]; simpl in Hl; try lia.
    simpl in Hd. apply andb_prop in Hd as [Ha Hd]. apply andb_prop in Hd as [Hb Hd].
    destruct (digit_pair_byte a b Ha Hb) as (v & byte & Hv & Hbyte & Hr & Hf).
    destruct (IH s Hd ltac:(lia)) as (bs & Hbs & Hlen & Hall & Hdig).
    exists (byte :: bs).
    replace (seq 0 (S n)) with (0%nat :: map S (seq 0 n))
      by (by rewrite seq_shift).
    rewrite !map_cons, !map_map.
    rewrite (map_ext _ (fun j => int_of_str (substring (2 * j) 2 s))).
    2:{ intros j. replace (2 * S j)%nat with (S (S (2 * j))) by lia. reflexivity. }
    rewrite <- (map_map (fun j => 2 * j)%nat (fun i => int_of_str (substring i 2 s))).
    cbn [to_bytes].
    assert (substring (2 * 0) 2 (String a (String b s)) = String a (String b ""))
      as -> by (by destruct s).
    rewrite Hv. unfold mbind at 1, result_bind at 1. rewrite Hbyte.
    unfold mbind at 1, result_bind at 1. rewrite Hbs.
    repeat split.
    + simpl. by rewrite Hlen.
    + by constructor.
    + unfold Utils.bcd_digits in *. rewrite map_cons, concat_cons, Hf, Hdig.
      replace (2 * S n)%nat with (S (S (2 * n))) by lia. reflexivity.
Qed.

(** What [_int_to_bcd] returns for a non-negative value: always [n] bytes,
    each with a value in [0..99], the first [2 * n] characters of the
    zero-padded decimal rendering taken pair by pair. *)
Lemma _int_to_bcd_nonneg (k : Z) (n : nat) :
  0 <= k ->
  exists bs,
    Utils._int_to_bcd k (2 * n) = Ok bs
    /\ length bs = n
    /\ Forall (fun b => 0 <= byte_val b <= 99) bs
    /\ Utils.bcd_digits bs = substring 0 (2 * n) (format_0d (2 * n) k).
Proof.
  intros Hk. unfold Utils._int_to_bcd. rewrite range2_even.
  destruct (format_0d_nonneg (2 * n) k Hk) as (Hd & Hl & _).
  apply digit_pairs_bytes; assumption.
Qed.



(** ** The record loop *)

Section RecordLoopFacts.
Variable handle : Z -> list byte -> dict -> result dict.

Lemma Ok_bind {A B} (a : A) (f : A -> result B) : Ok a ≫= f = f a.
Proof. reflexivity. Qed.

(** One pass of the loop, with the Python indexing and slicing resolved. *)
Lemma decode_loop_step (fuel : nat) (core : list byte) (i : nat) (data : dict) :
  decode_loop handle (S fuel) core i data =
  if (i <? length core)%nat then
    match core !! i with
    | Some trans =>
        match core !! S i with
        | Some ln =>
            handle (byte_val trans)
                   (take (Z.to_nat (byte_val ln)) (drop (i + 2) core)) data
              ≫= decode_loop handle fuel core (i + 2 + Z.to_nat (byte_val ln))
        | None => Raise IndexError
        end
    | None => Raise IndexError
    end
  else Ok data.
Proof.
  cbn [decode_loop]. destruct (i <? length core)%nat; [|done].
  rewrite py_index_nat. destruct (core !! i) as [trans|]; [|done].
  replace (Z.of_nat i + 1) with (Z.of_nat (S i)) by lia.
  rewrite py_index_nat. destruct (core !! S i) as [ln|]; [|done].
  rewrite !Ok_bind.
  pose proof (byte_val_range ln).
  replace (Z.of_nat i + 2) with (Z.of_nat (i + 2)) by lia.
  replace (Z.of_nat (i + 2) + byte_val ln)
    with (Z.of_nat (i + 2 + Z.to_nat (byte_val ln))) by lia.
  rewrite py_slice_nat.
  replace (i + 2 + Z.to_nat (byte_val ln) - (i + 2))%nat
    with (Z.to_nat (byte_val ln)) by lia.
  reflexivity.
Qed.

Lemma decode_loop_done (fuel : nat) (core : list byte) (i : nat) (data : dict) :
  (length core <= i)%nat -> decode_loop handle fuel core i data = Ok data.
Proof.
  intros H. destruct fuel; [done|]. rewrite decode_loop_step.
  by replace (i <? length core)%nat with false by (symmetry; apply Nat.ltb_ge; lia).
Qed.

(** Any fuel that covers the bytes still to read gives the same result:
    the fuel never cuts the loop short. *)
Lemma decode_loop_fuel (fuel fuel' : nat) (core : list byte) (i : nat) (data : dict) :
  (length core - i <= fuel)%nat -> (length core - i <= fuel')%nat ->
  decode_loop handle fuel core i data = decode_loop handle fuel' core i data.
Proof.
  revert fuel' i data. induction fuel as [|fuel IH]; intros fuel' i data H H'.
  - rewrite !decode_loop_done by lia. reflexivity.
  - destruct fuel' as [|fuel'].
    { rewrite !decode_loop_done by lia. reflexivity. }
    rewrite !decode_loop_step.
    destruct (Nat.ltb_spec i (length core)); [|done].
    destruct (core !! i); [|done]. destruct (core !! S i) as [ln|]; [|done].
    destruct (handle _ _ data) as [data'|]; [|done].
    apply IH; lia.
Qed.

(** The [while] equation: with the fuel [parse_response] supplies, a pass
    of the loop is followed by the rest of the loop. *)
Lemma decode_loop_unfold (core : list byte) (i : nat) (data : dict) :
  decode_loop handle (length core) core i data =
  if (i <? length core)%nat then
    match core !! i with
    | Some trans =>
        match core !! S i with
        | Some ln =>
            handle (byte_val trans)
                   (take (Z.to_nat (byte_val ln)) (drop (i + 2) core)) data
              ≫= decode_loop handle (length core) core
                               (i + 2 + Z.to_nat (byte_val ln))
        | None => Raise IndexError
        end
    | None => Raise IndexError
    end
  else Ok data.
Proof.
  rewrite (decode_loop_fuel (length core) (S (length core))) by lia.
  apply decode_loop_step.
Qed.

(** Reading from position [length pre + j] of [pre ++ rest] is reading
    from position [j] of [rest]. *)
Lemma decode_loop_shift (fuel : nat) (pre rest : list byte) (j : nat) (data : dict) :
  decode_loop handle fuel (pre ++ rest) (length pre + j) data
  = decode_loop handle fuel rest j data.
Proof.
  revert j data. induction fuel as [|fuel IH]; intros j data; [done|].
  rewrite !decode_loop_step. rewrite length_app.
  replace (length pre + j <? length pre + length rest)%nat
    with (j <? length rest)%nat.
  2:{ destruct (Nat.ltb_spec j (length rest));
      [symmetry; apply Nat.ltb_lt | symmetry; apply Nat.ltb_ge]; lia. }
  destruct (j <? length rest)%nat; [|done].
  rewrite lookup_app_r by lia.
  replace (length pre + j - length pre)%nat with j by lia.
  destruct (rest !! j) as [trans|]; [|done].
  rewrite lookup_app_r by lia.
  replace (S (length pre + j) - length pre)%nat with (S j) by lia.
  destruct (rest !! S j) as [ln|]; [|done].
  rewrite drop_app_ge by lia.
  replace (length pre + j + 2 - length pre)%nat with (j + 2)%nat by lia.
  destruct (handle _ _ data) as [data'|]; [|done]. simpl.
  replace (length pre + j + 2 + Z.to_nat (byte_val ln))%nat
    with (length pre + (j + 2 + Z.to_nat (byte_val ln)))%nat by lia.
  apply IH.
Qed.

Lemma decode_records_head (t : transaction) (rest : list byte) (data : dict) :
  in_bounds t ->
  decode_records handle (wire t ++ rest) data
  = handle (byte_val (tx_code t)) (tx_payload t) data
      ≫= decode_records handle rest.
Proof.
  unfold in_bounds, decode_records, wire. intros Hb.
  set (core := tx_code t :: tx_len t :: tx_payload t ++ rest).
  change ((tx_code t :: tx_len t :: tx_payload t) ++ rest) with core.
  rewrite decode_loop_unfold.
  assert (core !! 0%nat = Some (tx_code t)) as -> by reflexivity.
  assert (core !! 1%nat = Some (tx_len t)) as -> by reflexivity.
  assert ((0 <? length core)%nat = true) as -> by reflexivity.
  assert (drop (0 + 2) core = tx_payload t ++ rest) as -> by reflexivity.
  rewrite Hb, Nat2Z.id, take_app_length.
  destruct (handle _ _ data) as [data'|]; [|done]. rewrite Ok_bind.
  assert (core = [tx_code t; tx_len t] ++ tx_payload t ++ rest) as Hc by reflexivity.
  rewrite app_assoc in Hc.
  replace (0 + 2 + length (tx_payload t))%nat
    with (length ([tx_code t; tx_len t] ++ tx_payload t) + 0)%nat
    by (rewrite length_app; simpl; lia).
  rewrite Hc at 2. rewrite decode_loop_shift.
  apply decode_loop_fuel; [|lia]. rewrite Hc, length_app. lia.
Qed.

(** X1. Decoding a buffer that starts with a complete record is handling
    that record and then decoding what follows it. *)
Theorem decode_records_cons (t : transaction) (rest : list byte) (data : dict) :
  in_bounds t ->
  decode_records handle (wire t ++ rest) data
  = handle (byte_val (tx_code t)) (tx_payload t) data
      ≫= decode_records handle rest.
Proof.
  unfold in_bounds, decode_records, wire. intros Hb.
  set (core := tx_code t :: tx_len t :: tx_payload t ++ rest).
  change ((tx_code t :: tx_len t :: tx_payload t) ++ rest) with core.
  rewrite decode_loop_unfold.
  assert (core !! 0%nat = Some (tx_code t)) as -> by reflexivity.
  assert (core !! 1%nat = Some (tx_len t)) as -> by reflexivity.
  assert ((0 <? length core)%nat = true) as -> by reflexivity.
  assert (drop (0 + 2) core = tx_payload t ++ rest) as -> by reflexivity.
  rewrite Hb, Nat2Z.id, take_app_length.
  destruct (handle _ _ data) as [data'|]; [|done]. rewrite Ok_bind.
  assert (core = [tx_code t; tx_len t] ++ tx_payload t ++ rest) as Hc by reflexivity.
  rewrite app_assoc in Hc.
  replace (0 + 2 + length (tx_payload t))%nat
    with (length ([tx_code t; tx_len t] ++ tx_payload t) + 0)%nat
    by (rewrite length_app; simpl; lia).
  rewrite Hc at 2. rewrite decode_loop_shift.
  apply decode_loop_fuel; [|lia]. rewrite Hc, length_app. lia.
Qed.

End RecordLoopFacts.

(** ** Negative indices and slice bounds *)

Lemma py_slice_middle {A} (pre mid suf : list A) :
  suf <> [] ->
  py_slice (pre ++ mid ++ suf) (Some (Z.of_nat (length pre)))
           (Some (- Z.of_nat (length suf))) = mid.
Proof.
  intros Hs. assert (0 < length suf)%nat by (destruct suf; [done | simpl; lia]).
  unfold py_slice, slice_bound. cbv zeta. rewrite !length_app.
  replace (Z.of_nat (length pre) <? 0) with false by (symmetry; apply Z.ltb_ge; lia).
  replace (- Z.of_nat (length suf) <? 0) with true by (symmetry; apply Z.ltb_lt; lia).
  rewrite Z.min_l, Z.max_l by lia. rewrite Nat2Z.id, drop_app_length.
  replace (Z.to_nat _) with (length mid) by lia. apply take_app_length.
Qed.

Lemma py_index_from_end {A} (pre suf : list A) (x : A) :
  py_index (pre ++ x :: suf) (- Z.of_nat (S (length suf))) = Ok x.
Proof.
  unfold py_index. cbv zeta. rewrite length_app. cbn [length].
  replace (- Z.of_nat (S (length suf)) <? 0) with true by (symmetry; apply Z.ltb_lt; lia).
  replace (- Z.of_nat (S (length suf)) + Z.of_nat (length pre + S (length suf)))
    with (Z.of_nat (length pre)) by lia.
  replace (Z.of_nat (length pre) <? 0) with false by (symmetry; apply Z.ltb_ge; lia).
  replace (Z.of_nat (length pre + S (length suf)) <=? Z.of_nat (length pre))
    with false by (symmetry; apply Z.leb_gt; lia).
  rewrite Nat2Z.id. cbn [orb]. by rewrite list_lookup_middle.
Qed.

Lemma py_index_too_short {A} (l : list A) (k : nat) :
  (length l < k)%nat -> py_index l (- Z.of_nat k) = Raise IndexError.
Proof.
  intros H. unfold py_index. cbv zeta.
  replace (- Z.of_nat k <? 0) with true by (symmetry; apply Z.ltb_lt; lia).
  by replace (- Z.of_nat k + Z.of_nat (length l) <? 0) with true
    by (symmetry; apply Z.ltb_lt; lia).
Qed.

Lemma py_slice_length {A} (l : list A) (a b : nat) :
  length (py_slice l (Some (Z.of_nat a)) (Some (- Z.of_nat (S b))))
  = (length l - S b - a)%nat.
Proof.
  unfold py_slice, slice_bound. cbv zeta.
  replace (Z.of_nat a <? 0) with false by (symmetry; apply Z.ltb_ge; lia).
  replace (- Z.of_nat (S b) <? 0) with true by (symmetry; apply Z.ltb_lt; lia).
  rewrite length_take, length_drop. lia.
Qed.

Lemma crc_bytes_join (lo hi : byte) :
  Z.lor (byte_val lo) (Z.shiftl (byte_val hi) 8) = byte_val lo + 256 * byte_val hi.
Proof.
  pose proof (byte_val_range lo) as Hlo.
  assert (Z.land (byte_val lo) (Z.shiftl (byte_val hi) 8) = 0) as Hdisj.
  { apply Z.bits_inj'. intros n Hn. rewrite Z.land_spec, Z.bits_0.
    destruct (Z.ltb_spec n 8).
    - rewrite Z.shiftl_spec_low by lia. apply andb_false_r.
    - replace (byte_val lo) with (byte_val lo mod 2 ^ 8)
        by (apply Z.mod_small; lia).
      by rewrite Z.mod_pow2_bits_high by lia. }
  rewrite <- Z.lxor_lor by exact Hdisj.
  rewrite <- Z.add_nocarry_lxor by exact Hdisj.
  rewrite Z.shiftl_mul_pow2 by lia. lia.
Qed.

(** ** driver.py: parse_response as a whole *)

(** A response of at least six bytes, split into address, control, the
    bytes up to the checksum, the checksum pair and the last two bytes. *)
Lemma driver_parse_frame (a c : byte) (txs : list byte) (lo hi t1 t2 : byte) :
  Driver.parse_response (a :: c :: txs ++ [lo; hi; t1; t2]) =
  if byte_val lo + 256 * byte_val hi =? Utils.calc_crc (a :: c :: txs)
  then decode_records Driver.handle (txs ++ [lo; hi]) ∅
  else Raise (RuntimeError "CRC mismatch").
Proof.
  unfold Driver.parse_response. cbv zeta.
  assert (py_slice (a :: c :: txs ++ [lo; hi; t1; t2]) (Some 2) (Some (-2))
          = txs ++ [lo; hi]) as ->.
  { replace (a :: c :: txs ++ [lo; hi; t1; t2])
      with ([a; c] ++ (txs ++ [lo; hi]) ++ [t1; t2])
      by (by rewrite <- !app_assoc).
    apply (py_slice_middle [a; c] (txs ++ [lo; hi]) [t1; t2]). done. }
  assert (py_slice (a :: c :: txs ++ [lo; hi; t1; t2]) (Some 0) (Some (-4))
          = a :: c :: txs) as ->.
  { apply (py_slice_middle [] (a :: c :: txs) [lo; hi; t1; t2]). done. }
  rewrite (py_index_from_end txs [hi] lo : py_index (txs ++ [lo; hi]) (-2) = Ok lo).
  rewrite Ok_bind.
  assert (py_index (txs ++ [lo; hi]) (-1) = Ok hi) as ->.
  { change (txs ++ [lo; hi]) with (txs ++ [lo] ++ [hi]). rewrite app_assoc.
    apply (py_index_from_end (txs ++ [lo]) [] hi). }
  rewrite Ok_bind, crc_bytes_join.
  by destruct (_ =? _).
Qed.

Lemma split_last_two {A} (l : list A) :
  (2 <= length l)%nat -> exists l' x y, l = l' ++ [x; y].
Proof.
  intros H. rewrite <- (take_drop (length l - 2) l).
  assert (length (drop (length l - 2) l) = 2%nat) as Hd by (rewrite length_drop; lia).
  destruct (drop (length l - 2) l) as [|x [|y [|z r]]]; try discriminate Hd.
  by exists (take (length l - 2) l), x, y.
Qed.

Lemma driver_parse_short (resp : list byte) :
  (length resp < 6)%nat -> Driver.parse_response resp = Raise IndexError.
Proof.
  intros H. unfold Driver.parse_response. cbv zeta.
  rewrite (py_index_too_short _ 2); [done|].
  pose proof (py_slice_length resp 2 1) as Hl.
  assert (length (py_slice resp (Some 2) (Some (-2))) = (length resp - 2 - 2)%nat)
    as -> by exact Hl.
  lia.
Qed.

(** X2. A response shorter than six bytes (nothing at all after a timeout,
    or a cut frame) makes [parse_response] raise [IndexError]; it never
    returns an empty dictionary for it. *)
Theorem driver_parse_short_response (resp : list byte) :
  (length resp < 6)%nat -> Driver.parse_response resp = Raise IndexError.
Proof.
  intros H. unfold Driver.parse_response. cbv zeta.
  assert (length (py_slice resp (Some 2%Z) (Some (-2)%Z)) < 2)%nat as Hcore.
  { pose proof (py_slice_length resp 2 1) as Hl.
    assert (length (py_slice resp (Some 2) (Some (-2))) = (length resp - 2 - 2)%nat)
      as -> by exact Hl.
    lia. }
  assert (py_index (py_slice resp (Some 2) (Some (-2))) (-2) = Raise IndexError)
    as -> by exact (py_index_too_short _ 2 Hcore).
  reflexivity.
Qed.

Lemma driver_parse_short_response_witness :
  (length (@nil byte) < 6)%nat /\ Driver.parse_response [] = Raise IndexError.
Proof.
  split; [simpl; lia|]. apply (driver_parse_short_response []). simpl. lia.
Defined.

(** X3. [parse_response] of driver.py never looks at the last two bytes of
    the response: whatever stands where ETX and SF should be, the result is
    the same. *)
Theorem driver_parse_ignores_terminator (body : list byte) (t1 t2 u1 u2 : byte) :
  Driver.parse_response (body ++ [t1; t2])
  = Driver.parse_response (body ++ [u1; u2]).
Proof.
  destruct (decide (length body < 4)%nat) as [Hs|Hl].
  - rewrite !driver_parse_short; [done | |]; rewrite length_app; simpl; lia.
  - destruct body as [|a [|c rest]]; simpl in Hl; try lia.
    destruct (split_last_two rest) as (txs & lo & hi & ->); [lia|].
    cbn [app]. rewrite <- !app_assoc. cbn [app].
    by rewrite !driver_parse_frame.
Qed.

Lemma driver_parse_crc_ok (a c : byte) (txs : list byte) (lo hi t1 t2 : byte) :
  byte_val lo + 256 * byte_val hi = Utils.calc_crc (a :: c :: txs) ->
  Driver.parse_response (a :: c :: txs ++ [lo; hi; t1; t2])
  = decode_records Driver.handle (txs ++ [lo; hi]) ∅.
Proof.
  intros H. rewrite driver_parse_frame.
  by replace (_ =? _) with true by (symmetry; apply Z.eqb_eq; exact H).
Qed.

(** X4. When the two bytes before the terminator are the CRC of everything
    before them, [parse_response] runs the record loop over the bytes after
    the control byte including those two checksum bytes. *)
Theorem driver_parse_checksummed (a c : byte) (txs : list byte) (lo hi t1 t2 : byte) :
  byte_val lo + 256 * byte_val hi = Utils.calc_crc (a :: c :: txs) ->
  Driver.parse_response (a :: c :: txs ++ [lo; hi; t1; t2])
  = decode_records Driver.handle (txs ++ [lo; hi]) ∅.
Proof.
  intros H. rewrite driver_parse_frame.
  by replace (_ =? _) with true by (symmetry; apply Z.eqb_eq; exact H).
Qed.

Lemma driver_parse_checksummed_witness :
  byte_val xfd + 256 * byte_val x7d = Utils.calc_crc [x51; x90; x01; x01; x00]
  /\ Driver.parse_response [x51; x90; x01; x01; x00; xfd; x7d; x03; xfa]
     = decode_records Driver.handle [x01; x01; x00; xfd; x7d] ∅.
Proof.
  split; [reflexivity|].
  apply (driver_parse_checksummed x51 x90 [x01; x01; x00] xfd x7d x03 xfa).
  reflexivity.
Defined.

Lemma driver_parse_crc_bad (a c : byte) (txs : list byte) (lo hi t1 t2 : byte) :
  byte_val lo + 256 * byte_val hi <> Utils.calc_crc (a :: c :: txs) ->
  Driver.parse_response (a :: c :: txs ++ [lo; hi; t1; t2])
  = Raise (RuntimeError "CRC mismatch").
Proof.
  intros H. rewrite driver_parse_frame.
  by replace (_ =? _) with false by (symmetry; apply Z.eqb_neq; exact H).
Qed.

(** X5. When those two bytes are not the CRC of what precedes them,
    [parse_response] of driver.py raises [RuntimeError("CRC mismatch")]
    and decodes nothing, whatever the transactions in the response. *)
Theorem driver_parse_crc_mismatch (a c : byte) (txs : list byte) (lo hi t1 t2 : byte) :
  byte_val lo + 256 * byte_val hi <> Utils.calc_crc (a :: c :: txs) ->
  Driver.parse_response (a :: c :: txs ++ [lo; hi; t1; t2])
  = Raise (RuntimeError "CRC mismatch").
Proof.
  intros H. rewrite driver_parse_frame.
  by replace (_ =? _) with false by (symmetry; apply Z.eqb_neq; exact H).
Qed.

Lemma driver_parse_crc_mismatch_witness :
  byte_val x00 + 256 * byte_val x00 <> Utils.calc_crc [x51; x90; x01; x01; x02]
  /\ Driver.parse_response [x51; x90; x01; x01; x02; x00; x00; x03; xfa]
     = Raise (RuntimeError "CRC mismatch").
Proof.
  split; [by vm_compute|].
  apply (driver_parse_crc_mismatch x51 x90 [x01; x01; x02] x00 x00 x03 xfa).
  by vm_compute.
Defined.

(** ** Complete records followed by the checksum bytes *)

Lemma bind_assoc {A B C} (m : result A) (f : A -> result B) (g : B -> result C) :
  (m ≫= f) ≫= g = m ≫= (fun a => f a ≫= g).
Proof. by destruct m. Qed.

Lemma bind_Ok_r {A} (m : result A) : m ≫= Ok = m.
Proof. by destruct m. Qed.

Lemma decode_records_wire_all handle (ts : list transaction) (rest : list byte)
    (data : dict) :
  Forall in_bounds ts ->
  decode_records handle (wire_all ts ++ rest) data
  = handle_all handle ts data ≫= decode_records handle rest.
Proof.
  intros Hts. revert data. induction Hts as [|t ts Ht _ IH]; intros data; [done|].
  unfold wire_all. cbn [map concat handle_all]. rewrite <- app_assoc.
  rewrite decode_records_head by exact Ht.
  rewrite bind_assoc. destruct (handle _ _ data) as [data'|]; [|done].
  rewrite !Ok_bind. apply IH.
Qed.

(** Two bytes left in the buffer are read as a code and a length with no
    content behind them. *)
Lemma decode_records_pair handle (code ln : byte) (data : dict) :
  decode_records handle [code; ln] data = handle (byte_val code) [] data.
Proof.
  unfold decode_records. rewrite decode_loop_unfold.
  assert (([code; ln] : list byte) !! 0%nat = Some code) as -> by reflexivity.
  assert (([code; ln] : list byte) !! 1%nat = Some ln) as -> by reflexivity.
  assert ((0 <? length [code; ln])%nat = true) as -> by reflexivity.
  assert (drop (0 + 2) [code; ln] = []) as -> by reflexivity.
  rewrite take_nil. destruct (handle _ _ data) as [data'|]; [|done].
  rewrite Ok_bind. apply decode_loop_done. simpl. lia.
Qed.

Lemma driver_parse_records (a c : byte) (ts : list transaction)
    (lo hi t1 t2 : byte) :
  Forall in_bounds ts ->
  byte_val lo + 256 * byte_val hi = Utils.calc_crc (a :: c :: wire_all ts) ->
  Driver.parse_response (a :: c :: wire_all ts ++ [lo; hi; t1; t2])
  = handle_all Driver.handle ts ∅ ≫= Driver.handle (byte_val lo) [].
Proof.
  intros Hts Hcrc. rewrite driver_parse_crc_ok by exact Hcrc.
  rewrite decode_records_wire_all by exact Hts.
  destruct (handle_all _ ts ∅) as [data|]; [|done].
  rewrite !Ok_bind. apply decode_records_pair.
Qed.

(** X6. A correctly checksummed response made of complete records: driver.py
    handles the records in order and then handles the low checksum byte as
    one more transaction code, with empty content. *)
Theorem driver_parse_trailer (a c : byte) (ts : list transaction)
    (lo hi t1 t2 : byte) :
  Forall in_bounds ts ->
  byte_val lo + 256 * byte_val hi = Utils.calc_crc (a :: c :: wire_all ts) ->
  Driver.parse_response (a :: c :: wire_all ts ++ [lo; hi; t1; t2])
  = handle_all Driver.handle ts ∅ ≫= Driver.handle (byte_val lo) [].
Proof.
  intros Hts Hcrc. rewrite driver_parse_crc_ok by exact Hcrc.
  rewrite decode_records_wire_all by exact Hts.
  destruct (handle_all _ ts ∅) as [data|]; [|done].
  rewrite !Ok_bind. apply decode_records_pair.
Qed.

Lemma driver_parse_trailer_witness :
  Forall in_bounds [{| tx_code := x01; tx_len := x01; tx_payload := [x02] |}]
  /\ byte_val xbf + 256 * byte_val x5d = Utils.calc_crc (x51 :: x90 :: wire_all [{| tx_code := x01; tx_len := x01; tx_payload := [x02] |}])
  /\ Driver.parse_response (x51 :: x90 :: wire_all [{| tx_code := x01; tx_len := x01; tx_payload := [x02] |}] ++ [xbf; x5d; x03; xfa])
     = handle_all Driver.handle [{| tx_code := x01; tx_len := x01; tx_payload := [x02] |}] ∅ ≫= Driver.handle (byte_val xbf) [].
Proof.
  set (t := {| tx_code := x01; tx_len := x01; tx_payload := [x02] |}).
  assert (Forall in_bounds [t]) as Ht by (repeat constructor).
  assert (byte_val xbf + 256 * byte_val x5d
          = Utils.calc_crc (x51 :: x90 :: wire_all [t])) as Hc by reflexivity.
  split; [exact Ht|]. split; [exact Hc|].
  exact (driver_parse_trailer x51 x90 [t] xbf x5d x03 xfa Ht Hc).
Defined.

(** X7. Such a response cannot be parsed when its checksum happens to have
    the low byte 1, 2 or 3: the empty pseudo-record makes the status handler
    raise [IndexError] and the BCD handlers raise [ValueError], although
    every real record was handled. *)
Theorem driver_parse_trailer_raises (a c : byte) (ts : list transaction)
    (lo hi t1 t2 : byte) :
  Forall in_bounds ts ->
  byte_val lo + 256 * byte_val hi = Utils.calc_crc (a :: c :: wire_all ts) ->
  is_Ok (handle_all Driver.handle ts ∅) ->
  (byte_val lo = 1 ->
   Driver.parse_response (a :: c :: wire_all ts ++ [lo; hi; t1; t2])
   = Raise IndexError)
  /\ (byte_val lo = 2 \/ byte_val lo = 3 ->
      Driver.parse_response (a :: c :: wire_all ts ++ [lo; hi; t1; t2])
      = Raise ValueError).
Proof.
  intros Hts Hcrc [data Hd].
  rewrite (driver_parse_records a c ts lo hi t1 t2 Hts Hcrc), Hd, Ok_bind.
  split.
  - intros ->. reflexivity.
  - intros [-> | ->]; reflexivity.
Qed.

Lemma driver_parse_trailer_raises_witness :
  Forall in_bounds [{| tx_code := x01; tx_len := x01; tx_payload := [x06] |}]
  /\ byte_val x03 + 256 * byte_val xc0 = Utils.calc_crc (x51 :: x10 :: wire_all [{| tx_code := x01; tx_len := x01; tx_payload := [x06] |}])
  /\ is_Ok (handle_all Driver.handle [{| tx_code := x01; tx_len := x01; tx_payload := [x06] |}] ∅)
  /\ Driver.parse_response (x51 :: x10 :: wire_all [{| tx_code := x01; tx_len := x01; tx_payload := [x06] |}] ++ [x03; xc0; x03; xfa])
     = Raise ValueError.
Proof.
  set (t := {| tx_code := x01; tx_len := x01; tx_payload := [x06] |}).
  assert (Forall in_bounds [t]) as Ht by (repeat constructor).
  assert (byte_val x03 + 256 * byte_val xc0
          = Utils.calc_crc (x51 :: x10 :: wire_all [t])) as Hc by reflexivity.
  assert (is_Ok (handle_all Driver.handle [t] ∅)) as Hok by (eexists; reflexivity).
  split; [exact Ht|]. split; [exact Hc|]. split; [exact Hok|].
  apply (driver_parse_trailer_raises x51 x10 [t] x03 xc0 x03 xfa Ht Hc Hok).
  right. reflexivity.
Defined.

(** X8. When the checksum's low byte is 9 or 7, the pseudo-record overwrites
    what the real records decoded: the identity becomes the empty string,
    the grades mask becomes 0. *)
Theorem driver_parse_trailer_clobbers (a c : byte) (ts : list transaction)
    (lo hi t1 t2 : byte) (data : dict) :
  Forall in_bounds ts ->
  byte_val lo + 256 * byte_val hi = Utils.calc_crc (a :: c :: wire_all ts) ->
  handle_all Driver.handle ts ∅ = Ok data ->
  (byte_val lo = 9 ->
   Driver.parse_response (a :: c :: wire_all ts ++ [lo; hi; t1; t2])
   = Ok (<["pump_identity" := VStr ""]> data))
  /\ (byte_val lo = 7 ->
      Driver.parse_response (a :: c :: wire_all ts ++ [lo; hi; t1; t2])
      = Ok (<["grades_mask" := VInt 0]> data)).
Proof.
  intros Hts Hcrc Hd.
  rewrite (driver_parse_records a c ts lo hi t1 t2 Hts Hcrc), Hd, Ok_bind.
  split; intros ->; reflexivity.
Qed.

Lemma driver_parse_trailer_clobbers_witness :
  Forall in_bounds [{| tx_code := x09; tx_len := x01; tx_payload := [x04] |}]
  /\ byte_val x09 + 256 * byte_val x65 = Utils.calc_crc (x51 :: x20 :: wire_all [{| tx_code := x09; tx_len := x01; tx_payload := [x04] |}])
  /\ handle_all Driver.handle [{| tx_code := x09; tx_len := x01; tx_payload := [x04] |}] ∅ = Ok {["pump_identity" := VStr "04"]}
  /\ Driver.parse_response (x51 :: x20 :: wire_all [{| tx_code := x09; tx_len := x01; tx_payload := [x04] |}] ++ [x09; x65; x03; xfa])
     = Ok (<["pump_identity" := VStr ""]> {["pump_identity" := VStr "04"]}).
Proof.
  set (t := {| tx_code := x09; tx_len := x01; tx_payload := [x04] |}).
  assert (Forall in_bounds [t]) as Ht by (repeat constructor).
  assert (byte_val x09 + 256 * byte_val x65
          = Utils.calc_crc (x51 :: x20 :: wire_all [t])) as Hc by reflexivity.
  assert (handle_all Driver.handle [t] ∅ = Ok {["pump_identity" := VStr "04"]})
    as Hd by reflexivity.
  split; [exact Ht|]. split; [exact Hc|]. split; [exact Hd|].
  apply (driver_parse_trailer_clobbers x51 x20 [t] x09 x65 x03 xfa _ Ht Hc Hd).
  reflexivity.
Defined.

Lemma decode_records_cons_witness :
  in_bounds {| tx_code := x01; tx_len := x01; tx_payload := [x02] |}
  /\ decode_records Driver.handle (wire {| tx_code := x01; tx_len := x01; tx_payload := [x02] |} ++ [x07; x00]) ∅
     = Driver.handle (byte_val (tx_code {| tx_code := x01; tx_len := x01; tx_payload := [x02] |})) (tx_payload {| tx_code := x01; tx_len := x01; tx_payload := [x02] |}) ∅
         ≫= decode_records Driver.handle [x07; x00].
Proof.
  set (t := {| tx_code := x01; tx_len := x01; tx_payload := [x02] |}).
  assert (in_bounds t) as Ht by reflexivity.
  split; [exact Ht|].
  exact (decode_records_cons Driver.handle t [x07; x00] ∅ Ht).
Defined.

(** ** serial_io/driver.py: parse_response as a whole *)

Lemma py_slice_None_lo {A} (l : list A) (hi : option Z) :
  py_slice l None hi = py_slice l (Some 0) hi.
Proof.
  unfold py_slice, slice_bound. cbv zeta.
  replace (0 <? 0) with false by reflexivity. by rewrite Z.min_l by lia.
Qed.

Lemma py_slice_init {A} (l suf : list A) :
  suf <> [] -> py_slice (l ++ suf) None (Some (- Z.of_nat (length suf))) = l.
Proof.
  intros H. rewrite py_slice_None_lo. by apply (py_slice_middle [] l suf).
Qed.

Lemma py_slice_from {A} (pre l : list A) :
  py_slice (pre ++ l) (Some (Z.of_nat (length pre))) None = l.
Proof.
  unfold py_slice, slice_bound. cbv zeta. rewrite length_app.
  replace (Z.of_nat (length pre) <? 0) with false by (symmetry; apply Z.ltb_ge; lia).
  rewrite Z.min_l by lia. rewrite Nat2Z.id, drop_app_length.
  apply take_ge. lia.
Qed.

(** The dictionary [parse_response] starts the loop with. *)
Lemma serial_parse_frame (a c : byte) (payload : list byte) (lo hi : byte) :
  SerialIO.parse_response (a :: c :: payload ++ [lo; hi; x03; xfa]) =
  decode_records SerialIO.handle payload
    (if negb (Z.land (Utils.calc_crc (a :: c :: payload)) 0xFF =? byte_val lo)
        || negb (Z.land (Z.shiftr (Utils.calc_crc (a :: c :: payload)) 8) 0xFF
                 =? byte_val hi)
     then <["error" := VStr "CRC_ERROR"]> ∅ else ∅).
Proof.
  unfold SerialIO.parse_response. cbv zeta.
  set (response := a :: c :: payload ++ [lo; hi; x03; xfa]).
  assert (response = (a :: c :: payload ++ [lo; hi]) ++ [x03; xfa]) as Hr.
  { unfold response. cbn [app]. by rewrite <- app_assoc. }
  assert ((length response <? 5)%nat = false) as ->.
  { apply Nat.ltb_ge. unfold response. cbn [length]. rewrite length_app. simpl. lia. }
  assert (py_index response (-2) = Ok x03) as ->.
  { rewrite Hr. apply (py_index_from_end (a :: c :: payload ++ [lo; hi]) [xfa] x03). }
  rewrite Ok_bind. change (byte_val x03 =? 3) with true. cbv iota.
  assert (py_index response (-1) = Ok xfa) as ->.
  { rewrite Hr. change [x03; xfa] with ([x03] ++ [xfa]). rewrite app_assoc.
    apply (py_index_from_end ((a :: c :: payload ++ [lo; hi]) ++ [x03]) [] xfa). }
  rewrite !Ok_bind. change (byte_val xfa =? 250) with true. cbv iota.
  assert (py_slice response None (Some (-2)) = a :: c :: payload ++ [lo; hi]) as ->.
  { rewrite Hr. by apply (py_slice_init (a :: c :: payload ++ [lo; hi]) [x03; xfa]). }
  assert (py_index (a :: c :: payload ++ [lo; hi]) (-2) = Ok lo) as ->.
  { apply (py_index_from_end (a :: c :: payload) [hi] lo). }
  rewrite Ok_bind.
  assert (py_index (a :: c :: payload ++ [lo; hi]) (-1) = Ok hi) as ->.
  { change (a :: c :: payload ++ [lo; hi]) with ((a :: c :: payload) ++ [lo] ++ [hi]).
    rewrite app_assoc. apply (py_index_from_end ((a :: c :: payload) ++ [lo]) [] hi). }
  rewrite Ok_bind.
  assert (py_slice (a :: c :: payload ++ [lo; hi]) None (Some (-2))
          = a :: c :: payload) as ->.
  { by apply (py_slice_init (a :: c :: payload) [lo; hi]). }
  change (py_index (a :: c :: payload) 0) with (Ok (A:=byte) a).
  rewrite Ok_bind.
  assert (py_index (a :: c :: payload) 1 = Ok c) as ->.
  { apply (py_index_nat (a :: c :: payload) 1). }
  rewrite Ok_bind.
  assert (py_slice (a :: c :: payload) (Some 2) None = payload) as ->.
  { apply (py_slice_from [a; c] payload). }
  reflexivity.
Qed.

Lemma crc_split_check (crc : Z) (lo hi : byte) :
  0 <= crc <= 0xFFFF ->
  negb (Z.land crc 0xFF =? byte_val lo)
  || negb (Z.land (Z.shiftr crc 8) 0xFF =? byte_val hi)
  = negb (byte_val lo + 256 * byte_val hi =? crc).
Proof.
  intros Hc. pose proof (byte_val_range lo). pose proof (byte_val_range hi).
  change 0xFF with (Z.ones 8). rewrite !Z.land_ones by lia.
  rewrite Z.shiftr_div_pow2 by lia. change (2 ^ 8) with 256.
  assert (crc / 256 mod 256 = crc / 256) as ->.
  { apply Z.mod_small. split; [apply Z.div_pos; lia|].
    apply Z.div_lt_upper_bound; lia. }
  pose proof (Z.div_mod crc 256 ltac:(lia)).
  pose proof (Z.mod_pos_bound crc 256 ltac:(lia)).
  destruct (Z.eqb_spec (crc mod 256) (byte_val lo));
  destruct (Z.eqb_spec (crc / 256) (byte_val hi));
  destruct (Z.eqb_spec (byte_val lo + 256 * byte_val hi) crc);
  simpl; try reflexivity; lia.
Qed.

(** No branch of the serial_io handler touches the key [error], and none
    reads the dictionary: an [error] entry present before is carried along. *)
Lemma serial_handle_keeps_error (code : Z) (content : list byte) (data : dict)
    (v : pyval) :
  SerialIO.handle code content (<["error" := v]> data)
  = insert "error" v <$> SerialIO.handle code content data.
Proof.
  unfold SerialIO.handle.
  destruct (code =? 1).
  { destruct (py_index content 0) as [st|]; [|done]. rewrite !Ok_bind.
    cbn [fmap result_fmap mret result_ret]. f_equal.
    rewrite (insert_insert_ne _ "error" "pump_status") by done.
    by rewrite (insert_insert_ne _ "error" "pump_status_code") by done. }
  destruct (code =? 3).
  { destruct (4 <=? length content)%nat; [|done].
    destruct (py_index content 3) as [ni|]; [|done]. rewrite !Ok_bind.
    unfold SerialIO.settings_attr. reflexivity. }
  destruct (code =? 2); [|done].
  unfold SerialIO.settings_attr. reflexivity.
Qed.

Lemma serial_loop_keeps_error (fuel : nat) (core : list byte) (i : nat)
    (data : dict) (v : pyval) :
  decode_loop SerialIO.handle fuel core i (<["error" := v]> data)
  = insert "error" v <$> decode_loop SerialIO.handle fuel core i data.
Proof.
  revert i data. induction fuel as [|fuel IH]; intros i data; [done|].
  rewrite !decode_loop_step. destruct (i <? length core)%nat; [|done].
  destruct (core !! i) as [trans|]; [|done].
  destruct (core !! S i) as [ln|]; [|done].
  rewrite serial_handle_keeps_error.
  destruct (SerialIO.handle _ _ data) as [data'|]; [|done].
  cbn [fmap result_fmap]. rewrite !Ok_bind. apply IH.
Qed.

(** X9. In serial_io/driver.py a checksum mismatch does not stop the
    decoding: for a terminated response whose checksum bytes are wrong, the
    result is exactly what the same payload decodes to with a correct
    checksum, plus the entry [error = "CRC_ERROR"] (also when that decode
    raises: the same exception). *)
Theorem serial_parse_crc_error (a c : byte) (payload : list byte) (lo hi : byte) :
  byte_val lo + 256 * byte_val hi <> Utils.calc_crc (a :: c :: payload) ->
  SerialIO.parse_response (a :: c :: payload ++ [lo; hi; x03; xfa])
  = insert "error" (VStr "CRC_ERROR")
      <$> decode_records SerialIO.handle payload ∅.
Proof.
  intros H. rewrite serial_parse_frame.
  rewrite crc_split_check by (pose proof (calc_crc_range (a :: c :: payload)); lia).
  replace (_ =? _) with false by (symmetry; apply Z.eqb_neq; exact H).
  cbn [negb]. apply serial_loop_keeps_error.
Qed.

Lemma serial_parse_crc_error_witness :
  byte_val x00 + 256 * byte_val x00 <> Utils.calc_crc [x51; x90; x01; x01; x02]
  /\ SerialIO.parse_response [x51; x90; x01; x01; x02; x00; x00; x03; xfa]
     = insert "error" (VStr "CRC_ERROR")
         <$> decode_records SerialIO.handle [x01; x01; x02] ∅.
Proof.
  split; [by vm_compute|].
  apply (serial_parse_crc_error x51 x90 [x01; x01; x02] x00 x00). by vm_compute.
Defined.

Lemma serial_parse_crc_ok (a c : byte) (payload : list byte) (lo hi : byte) :
  byte_val lo + 256 * byte_val hi = Utils.calc_crc (a :: c :: payload) ->
  SerialIO.parse_response (a :: c :: payload ++ [lo; hi; x03; xfa])
  = decode_records SerialIO.handle payload ∅.
Proof.
  intros H. rewrite serial_parse_frame.
  rewrite crc_split_check by (pose proof (calc_crc_range (a :: c :: payload)); lia).
  by replace (_ =? _) with true by (symmetry; apply Z.eqb_eq; exact H).
Qed.

(** X10. With a correct checksum nothing is added: the result is the decode
    of the payload alone, starting from the empty dictionary. *)
Theorem serial_parse_checksummed (a c : byte) (payload : list byte) (lo hi : byte) :
  byte_val lo + 256 * byte_val hi = Utils.calc_crc (a :: c :: payload) ->
  SerialIO.parse_response (a :: c :: payload ++ [lo; hi; x03; xfa])
  = decode_records SerialIO.handle payload ∅.
Proof.
  intros H. rewrite serial_parse_frame.
  rewrite crc_split_check by (pose proof (calc_crc_range (a :: c :: payload)); lia).
  by replace (_ =? _) with true by (symmetry; apply Z.eqb_eq; exact H).
Qed.

Lemma serial_parse_checksummed_witness :
  byte_val xbf + 256 * byte_val x5d = Utils.calc_crc [x51; x90; x01; x01; x02]
  /\ SerialIO.parse_response [x51; x90; x01; x01; x02; xbf; x5d; x03; xfa]
     = decode_records SerialIO.handle [x01; x01; x02] ∅.
Proof.
  split; [reflexivity|].
  apply (serial_parse_checksummed x51 x90 [x01; x01; x02] xbf x5d). reflexivity.
Defined.

(** X11. serial_io/driver.py never binds the name [settings]: a response
    whose payload starts with a complete volume/amount record (code 2), or a
    nozzle record (code 3) of at least four bytes, makes [parse_response]
    raise [NameError], with or without a correct checksum. *)
Theorem serial_parse_name_error (a c : byte) (t : transaction) (rest : list byte)
    (lo hi : byte) :
  in_bounds t ->
  tx_code t = x02 \/ (tx_code t = x03 /\ (4 <= length (tx_payload t))%nat) ->
  SerialIO.parse_response (a :: c :: (wire t ++ rest) ++ [lo; hi; x03; xfa])
  = Raise (NameError "settings").
Proof.
  intros Hb Hcode. rewrite serial_parse_frame.
  assert (forall data, SerialIO.handle (byte_val (tx_code t)) (tx_payload t) data
                       = Raise (NameError "settings")) as Hh.
  { intros data. unfold SerialIO.handle. destruct Hcode as [-> | [-> Hlen]].
    - reflexivity.
    - change (byte_val x03 =? 1) with false. change (byte_val x03 =? 3) with true.
      cbv iota.
      replace (4 <=? length (tx_payload t))%nat with true
        by (symmetry; apply Nat.leb_le; exact Hlen).
      destruct (tx_payload t) as [|p0 [|p1 [|p2 [|p3 ps]]]]; simpl in Hlen; try lia.
      assert (py_index (p0 :: p1 :: p2 :: p3 :: ps) 3 = Ok p3) as ->
        by apply (py_index_nat (p0 :: p1 :: p2 :: p3 :: ps) 3).
      reflexivity. }
  destruct (_ || _); rewrite decode_records_head by exact Hb; by rewrite Hh.
Qed.

Lemma serial_parse_name_error_witness :
  in_bounds {| tx_code := x02; tx_len := x01; tx_payload := [x05] |}
  /\ SerialIO.parse_response
       (x51 :: x90 :: (wire {| tx_code := x02; tx_len := x01; tx_payload := [x05] |}
                       ++ []) ++ [x00; x00; x03; xfa])
     = Raise (NameError "settings").
Proof.
  assert (in_bounds {| tx_code := x02; tx_len := x01; tx_payload := [x05] |})
    as Hb by reflexivity.
  split; [exact Hb|].
  apply (serial_parse_name_error x51 x90 _ [] x00 x00 Hb). left. reflexivity.
Defined.

(** ** Framing and parsing together *)

(** X12. driver.py agrees with itself on the checksum: a packet framed by
    [send_command] passes the CRC check of [parse_response], which then
    reads the command as a status record and the low checksum byte as one
    more transaction code. *)
Theorem driver_parse_own_packet (pump_id txn dcc : Z) (packet : list byte) :
  Driver.build_packet pump_id txn dcc = Ok packet ->
  exists d lo hi,
    byte_val d = dcc
    /\ byte_val lo + 256 * byte_val hi = Utils.calc_crc (take 5 packet)
    /\ Driver.parse_response packet
       = Driver.handle 1 [d] ∅ ≫= Driver.handle (byte_val lo) [].
Proof.
  intros H. apply build_packet_layout in H
    as (addr & ctrl & d & lo & hi & -> & _ & _ & Hd & Hlo & Hhi).
  exists d, lo, hi. split; [exact Hd|].
  pose proof (calc_crc_range [addr; ctrl; x01; x01; d]) as Hr.
  assert (byte_val lo + 256 * byte_val hi = Utils.calc_crc [addr; ctrl; x01; x01; d])
    as Hcrc.
  { rewrite Hlo, Hhi.
    pose proof (Z.div_mod (Utils.calc_crc [addr; ctrl; x01; x01; d]) 256). lia. }
  split; [exact Hcrc|].
  apply (driver_parse_records addr ctrl
           [{| tx_code := x01; tx_len := x01; tx_payload := [d] |}] lo hi x03 xfa).
  - repeat constructor.
  - exact Hcrc.
Qed.

Lemma driver_parse_own_packet_witness :
  Driver.build_packet 1 1 Driver.RETURN_STATUS
  = Ok [x51; x90; x01; x01; x00; xfd; x7d; x03; xfa]
  /\ exists d lo hi,
       byte_val d = Driver.RETURN_STATUS
       /\ byte_val lo + 256 * byte_val hi
          = Utils.calc_crc (take 5 [x51; x90; x01; x01; x00; xfd; x7d; x03; xfa])
       /\ Driver.parse_response [x51; x90; x01; x01; x00; xfd; x7d; x03; xfa]
          = Driver.handle 1 [d] ∅ ≫= Driver.handle (byte_val lo) [].
Proof.
  split; [reflexivity|].
  apply (driver_parse_own_packet 1 1 Driver.RETURN_STATUS). reflexivity.
Defined.

Lemma serial_build_packet_layout (pump_id : Z) (transactions packet : list byte) :
  SerialIO.build_packet pump_id transactions = Ok packet ->
  exists addr ctrl lo hi,
    packet = addr :: ctrl :: (xf1 :: transactions) ++ [lo; hi; x03; xfa]
    /\ byte_val addr = 0x50 + pump_id
    /\ byte_val ctrl = Z.lor 0x80 (Z.land pump_id 0x0F)
    /\ byte_val lo + 256 * byte_val hi
       = Utils.calc_crc (addr :: ctrl :: xf1 :: transactions).
Proof.
  unfold SerialIO.build_packet. cbv zeta. intros H.
  apply bind_Ok in H as (hd & Hhd & H).
  apply bind_Ok in H as (crc & Hcrc & [= <-]).
  apply to_bytes_two in Hhd as (addr & ctrl & -> & Haddr & Hctrl).
  apply to_bytes_two in Hcrc as (lo & hi & -> & Hlo & Hhi).
  exists addr, ctrl, lo, hi.
  change ([addr; ctrl] ++ [xf1] ++ transactions)
    with (addr :: ctrl :: xf1 :: transactions) in *.
  pose proof (calc_crc_range (addr :: ctrl :: xf1 :: transactions)) as Hr.
  repeat split; try done.
  - cbn [app]. by rewrite <- !app_assoc.
  - rewrite Hlo, Hhi. change 0xFF with (Z.ones 8). rewrite !Z.land_ones by lia.
    rewrite Z.shiftr_div_pow2 by lia. change (2 ^ 8) with 256.
    rewrite (Z.mod_small (_ / 256)).
    2:{ split; [apply Z.div_pos; lia|]. apply Z.div_lt_upper_bound; lia. }
    pose proof (Z.div_mod (Utils.calc_crc (addr :: ctrl :: xf1 :: transactions)) 256).
    lia.
Qed.

(** X13. serial_io/driver.py agrees with itself on the checksum too: a
    packet built by its [send_command] gets no [error] entry from its
    [parse_response]; the record loop then starts at the start delimiter
    [0xF1], taking it for a transaction code. *)
Theorem serial_parse_own_packet (pump_id : Z) (transactions packet : list byte) :
  SerialIO.build_packet pump_id transactions = Ok packet ->
  SerialIO.parse_response packet
  = decode_records SerialIO.handle (xf1 :: transactions) ∅.
Proof.
  intros H. apply serial_build_packet_layout in H
    as (addr & ctrl & lo & hi & -> & _ & _ & Hcrc).
  by apply serial_parse_crc_ok.
Qed.

Lemma serial_parse_own_packet_witness :
  SerialIO.build_packet 1 [x01; x01; x00]
  = Ok [x51; x81; xf1; x01; x01; x00; x4d; x50; x03; xfa]
  /\ SerialIO.parse_response [x51; x81; xf1; x01; x01; x00; x4d; x50; x03; xfa]
     = decode_records SerialIO.handle [xf1; x01; x01; x00] ∅.
Proof.
  split; [reflexivity|].
  apply (serial_parse_own_packet 1 [x01; x01; x00]). reflexivity.
Defined.

(** ** driver.py: send_command *)

Lemma to_byte_out_of_range (z : Z) :
  z < 0 \/ 255 < z -> to_byte z = Raise ValueError.
Proof.
  intros H. unfold to_byte. destruct (Z.ltb_spec z 0); [done|].
  destruct (Byte.of_N (Z.to_N z)) as [b|] eqn:E; [|done].
  apply Byte.to_of_N in E. pose proof (Byte.to_N_bounded b). lia.
Qed.

(** X14. The control byte keeps only three bits of the block counter's
    value: the packets built for counter values 8..15 are the very packets
    built for 0..7, so on the wire block 9 cannot be told from block 1. *)
Theorem driver_control_byte_aliases (pump_id txn dcc : Z) :
  0 <= txn <= 7 ->
  Driver.build_packet pump_id (txn + 8) dcc = Driver.build_packet pump_id txn dcc.
Proof.
  intros H. unfold Driver.build_packet. cbv zeta.
  assert (Z.lor 0x80 (Z.shiftl (Z.land (txn + 8) 0x0F) 4)
          = Z.lor 0x80 (Z.shiftl (Z.land txn 0x0F) 4)) as ->; [|reflexivity].
  assert (txn = 0 \/ txn = 1 \/ txn = 2 \/ txn = 3 \/ txn = 4 \/ txn = 5
          \/ txn = 6 \/ txn = 7) as Ht by lia.
  repeat (destruct Ht as [-> | Ht]; [reflexivity|]). by subst.
Qed.

Lemma driver_control_byte_aliases_witness :
  0 <= 1 <= 7
  /\ Driver.build_packet 1 (1 + 8) Driver.RETURN_STATUS
     = Driver.build_packet 1 1 Driver.RETURN_STATUS.
Proof.
  split; [lia|]. apply (driver_control_byte_aliases 1 1 Driver.RETURN_STATUS). lia.
Defined.

(** X15. A command code that does not fit a byte makes [send_command] raise
    [ValueError] after the block counter has been advanced: nothing is
    written to the port, yet a sequence number is used up. *)
Theorem driver_send_command_bad_dcc (device : list byte -> list byte)
    (port : Driver.Serial) (n pump_id dcc : Z) :
  Driver.is_open port = true ->
  dcc < 0 \/ 255 < dcc ->
  Driver.send_command device
    {| Driver.ser := Some port; Driver._tx_number := n |} pump_id dcc
  = (Raise ValueError,
     {| Driver.ser := Some port; Driver._tx_number := n mod 15 + 1 |}).
Proof.
  intros Hopen Hdcc. unfold Driver.send_command.
  cbn [Driver.ser Driver._next_tx Driver._tx_number]. rewrite Hopen.
  assert (forall txn, Driver.build_packet pump_id txn dcc = Raise ValueError) as ->.
  { intros txn. unfold Driver.build_packet, Driver.CD1. cbv zeta.
    change (to_bytes [Ok 1; Ok 1]) with (Ok (A:=list byte) [x01; x01]).
    rewrite Ok_bind.
    assert (to_bytes [Ok dcc] = Raise ValueError) as ->; [|reflexivity].
    unfold to_bytes. by rewrite Ok_bind, (to_byte_out_of_range dcc Hdcc). }
  reflexivity.
Qed.

Lemma driver_send_command_bad_dcc_witness :
  Driver.is_open {| Driver.is_open := true; Driver.rx := []; Driver.tx := [] |} = true
  /\ (256 < 0 \/ 255 < 256)
  /\ Driver.send_command (fun _ => [])
       {| Driver.ser := Some {| Driver.is_open := true; Driver.rx := [];
                                Driver.tx := [] |};
          Driver._tx_number := 15 |} 1 256
     = (Raise ValueError,
        {| Driver.ser := Some {| Driver.is_open := true; Driver.rx := [];
                                 Driver.tx := [] |};
           Driver._tx_number := 15 mod 15 + 1 |}).
Proof.
  split; [reflexivity|]. split; [right; lia|].
  apply (driver_send_command_bad_dcc (fun _ => [])
           {| Driver.is_open := true; Driver.rx := []; Driver.tx := [] |} 15 1 256).
  - reflexivity.
  - right. lia.
Defined.

Lemma read_until_FA_split (inp : list byte) :
  fst (Driver.read_until_FA inp) ++ snd (Driver.read_until_FA inp) = inp.
Proof.
  induction inp as [|b inp IH]; [done|]. cbn [Driver.read_until_FA].
  destruct (byte_val b =? 250); [done|].
  destruct (Driver.read_until_FA inp) as [r rest]. simpl in *. by rewrite IH.
Qed.

Lemma read_until_FA_stop (s more : list byte) :
  Forall (fun b => byte_val b <> 0xFA) s ->
  Driver.read_until_FA (s ++ xfa :: more) = (s ++ [xfa], more).
Proof.
  induction 1 as [|b s Hb _ IH]; [done|]. cbn [app Driver.read_until_FA].
  replace (byte_val b =? 250) with false by (symmetry; by apply Z.eqb_neq).
  by rewrite IH.
Qed.

(** X16. [send_command] of driver.py resets the input buffer before it
    writes: bytes left over in the buffer never reach the caller. Whatever
    was waiting, the response and the new buffer together are exactly what
    the pump answered to this packet, and the packet is what was appended to
    the written stream. *)
Theorem driver_send_command_fresh (device : list byte -> list byte)
    (stale written : list byte) (n pump_id dcc : Z) (packet : list byte) :
  Driver.build_packet pump_id (n mod 15 + 1) dcc = Ok packet ->
  exists resp rest,
    Driver.send_command device
      {| Driver.ser := Some {| Driver.is_open := true; Driver.rx := stale;
                               Driver.tx := written |};
         Driver._tx_number := n |} pump_id dcc
    = (Ok resp,
       {| Driver.ser := Some {| Driver.is_open := true; Driver.rx := rest;
                                Driver.tx := written ++ packet |};
          Driver._tx_number := n mod 15 + 1 |})
    /\ resp ++ rest = device packet.
Proof.
  intros Hp. unfold Driver.send_command.
  cbn [Driver.ser Driver.is_open Driver._next_tx Driver._tx_number Driver.tx].
  rewrite Hp. pose proof (read_until_FA_split (device packet)) as Hs.
  destruct (Driver.read_until_FA (device packet)) as [resp rest].
  by exists resp, rest.
Qed.

Lemma driver_send_command_fresh_witness :
  Driver.build_packet 1 (0 mod 15 + 1) Driver.RETURN_STATUS
  = Ok [x51; x90; x01; x01; x00; xfd; x7d; x03; xfa]
  /\ exists resp rest,
       Driver.send_command (fun _ => [x51; xfa])
         {| Driver.ser := Some {| Driver.is_open := true; Driver.rx := [x07; xfa];
                                  Driver.tx := [] |};
            Driver._tx_number := 0 |} 1 Driver.RETURN_STATUS
       = (Ok resp,
          {| Driver.ser := Some {| Driver.is_open := true; Driver.rx := rest;
                                   Driver.tx := [] ++ [x51; x90; x01; x01; x00;
                                                       xfd; x7d; x03; xfa] |};
             Driver._tx_number := 0 mod 15 + 1 |})
       /\ resp ++ rest = (fun _ : list byte => [x51; xfa])
                           [x51; x90; x01; x01; x00; xfd; x7d; x03; xfa].
Proof.
  split; [reflexivity|].
  apply (driver_send_command_fresh (fun _ => [x51; xfa]) [x07; xfa] [] 0 1
           Driver.RETURN_STATUS). reflexivity.
Defined.

(** X17. [send_command] of serial_io/driver.py does not reset the input
    buffer: when a complete frame (ending in [0xFA]) is still waiting in it,
    that stale frame is what the call returns, not the pump's answer to the
    packet just written. *)
Theorem serial_send_command_stale (device : list byte -> list byte)
    (s more written : list byte) (pump_id : Z) (transactions packet : list byte) :
  SerialIO.build_packet pump_id transactions = Ok packet ->
  Forall (fun b => byte_val b <> 0xFA) s ->
  SerialIO.send_command device
    {| SerialIO.ser := Some {| Driver.is_open := true;
                               Driver.rx := s ++ xfa :: more;
                               Driver.tx := written |} |} pump_id transactions
  = (Ok (s ++ [xfa]),
     {| SerialIO.ser := Some {| Driver.is_open := true;
                                Driver.rx := more ++ device packet;
                                Driver.tx := written ++ packet |} |}).
Proof.
  intros Hp Hs. unfold SerialIO.send_command.
  cbn [SerialIO.ser Driver.is_open Driver.rx Driver.tx]. rewrite Hp.
  rewrite <- app_assoc. cbn [app].
  by rewrite (read_until_FA_stop s (more ++ device packet) Hs).
Qed.

Lemma serial_send_command_stale_witness :
  SerialIO.build_packet 1 [x01; x01; x00]
  = Ok [x51; x81; xf1; x01; x01; x00; x4d; x50; x03; xfa]
  /\ Forall (fun b => byte_val b <> 0xFA) [x07]
  /\ SerialIO.send_command (fun _ => [x51; xfa])
       {| SerialIO.ser := Some {| Driver.is_open := true;
                                  Driver.rx := [x07] ++ xfa :: [];
                                  Driver.tx := [] |} |} 1 [x01; x01; x00]
     = (Ok ([x07] ++ [xfa]),
        {| SerialIO.ser := Some {| Driver.is_open := true;
                                   Driver.rx := [] ++ (fun _ : list byte => [x51; xfa])
                                     [x51; x81; xf1; x01; x01; x00; x4d; x50; x03; xfa];
                                   Driver.tx := [] ++ [x51; x81; xf1; x01; x01; x00;
                                                       x4d; x50; x03; xfa] |} |}).
Proof.
  assert (Forall (fun b => byte_val b <> 0xFA) [x07]) as Hs
    by (repeat constructor; by vm_compute).
  split; [reflexivity|]. split; [exact Hs|].
  apply (serial_send_command_stale (fun _ => [x51; xfa]) [x07] [] [] 1
           [x01; x01; x00]); [reflexivity | exact Hs].
Defined.

(** ** The checksum detects every change of a single byte *)

Lemma lxor_mod_pow2 (a b n : Z) :
  0 <= n -> Z.lxor a b mod 2 ^ n = Z.lxor (a mod 2 ^ n) (b mod 2 ^ n).
Proof.
  intros Hn. apply Z.bits_inj'. intros i Hi. rewrite Z.lxor_spec.
  destruct (Z.ltb_spec i n).
  - rewrite !Z.mod_pow2_bits_low by lia. apply Z.lxor_spec.
  - by rewrite !Z.mod_pow2_bits_high by lia.
Qed.

Lemma top_bit_threshold (x : Z) :
  0 <= x <= 0xFFFF -> Z.testbit x 15 = (2 ^ 15 <=? x).
Proof.
  intros Hx. destruct (Z.leb_spec (2 ^ 15) x) as [H|H].
  - apply Z.testbit_true; [lia|].
    assert (x / 2 ^ 15 = 1) as ->; [|reflexivity].
    symmetry. apply (Z.div_unique x (2 ^ 15) 1 (x - 2 ^ 15)); lia.
  - apply Z.testbit_false; [lia|]. by rewrite Z.div_small by lia.
Qed.

(** One shift step on a 16-bit register, in arithmetic: the register
    doubled when the top bit is clear, else the doubled low fifteen bits
    XORed with the polynomial. *)
Lemma crc_bit_form (x : Z) :
  0 <= x <= 0xFFFF ->
  Utils.crc_bit x
  = if 2 ^ 15 <=? x then Z.lxor (2 * (x - 2 ^ 15)) 0x1021 else 2 * x.
Proof.
  intros Hx. rewrite crc_bit_spec. unfold Spec.shift_step, Spec.top_bit,
    Spec.mask16, Spec.polynomial.
  rewrite (top_bit_threshold x Hx). destruct (Z.leb_spec (2 ^ 15) x) as [H|H].
  - rewrite lxor_mod_pow2 by lia. f_equal.
    symmetry. apply (Z.mod_unique (2 * x) (2 ^ 16) 1); lia.
  - apply Z.mod_small; lia.
Qed.

Lemma crc_bit_inj (x y : Z) :
  0 <= x <= 0xFFFF -> 0 <= y <= 0xFFFF ->
  Utils.crc_bit x = Utils.crc_bit y -> x = y.
Proof.
  intros Hx Hy. rewrite (crc_bit_form x Hx), (crc_bit_form y Hy).
  assert (forall z, Z.odd (Z.lxor (2 * z) 0x1021) = true) as Hodd.
  { intros z. rewrite <- Z.bit0_odd, Z.lxor_spec, !Z.bit0_odd, Z.odd_mul. reflexivity. }
  assert (forall z, Z.odd (2 * z) = false) as Heven
    by (intros z; by rewrite Z.odd_mul).
  destruct (2 ^ 15 <=? x), (2 ^ 15 <=? y); intros H.
  - apply (f_equal (fun z => Z.lxor z 0x1021)) in H.
    rewrite !Z.lxor_assoc, !Z.lxor_nilpotent, !Z.lxor_0_r in H. lia.
  - apply (f_equal Z.odd) in H. rewrite Hodd, Heven in H. discriminate.
  - apply (f_equal Z.odd) in H. rewrite Hodd, Heven in H. discriminate.
  - lia.
Qed.

Lemma crc_bits_inj (n : nat) (x y : Z) :
  0 <= x <= 0xFFFF -> 0 <= y <= 0xFFFF ->
  Nat.iter n Utils.crc_bit x = Nat.iter n Utils.crc_bit y -> x = y.
Proof.
  intros Hx Hy. induction n as [|n IH]; [done|]. cbn [Nat.iter]. intros H.
  apply IH. apply crc_bit_inj; [| |exact H].
  - destruct n; [exact Hx | apply crc_bit_range].
  - destruct n; [exact Hy | apply crc_bit_range].
Qed.

Lemma xor_byte_range (reg : Z) (b : byte) :
  0 <= reg <= 0xFFFF -> 0 <= Z.lxor reg (Z.shiftl (byte_val b) 8) <= 0xFFFF.
Proof.
  intros Hr. rewrite xor_high_byte_spec. unfold Spec.xor_into_high_byte.
  pose proof (byte_val_range b) as Hb.
  assert (0 <= Z.lxor (reg / 2 ^ 8) (byte_val b) < 2 ^ 8) as Hx.
  { assert (0 <= reg / 2 ^ 8 < 2 ^ 8) as Hq.
    { split; [apply Z.div_pos; lia | apply Z.div_lt_upper_bound; lia]. }
    split; [apply Z.lxor_nonneg; lia|].
    destruct (Z.eq_dec (Z.lxor (reg / 2 ^ 8) (byte_val b)) 0) as [->|Hne]; [lia|].
    apply Z.log2_lt_pow2; [pose proof (proj2 (Z.lxor_nonneg (reg / 2 ^ 8) (byte_val b))); lia|].
    eapply Z.le_lt_trans; [apply Z.log2_lxor; lia|].
    apply Z.max_lub_lt.
    - destruct (Z.eq_dec (reg / 2 ^ 8) 0) as [->|]; [simpl; lia|].
      apply Z.log2_lt_pow2; lia.
    - destruct (Z.eq_dec (byte_val b) 0) as [->|]; [simpl; lia|].
      apply Z.log2_lt_pow2; lia. }
  pose proof (Z.mod_pos_bound reg (2 ^ 8) ltac:(lia)). lia.
Qed.

Lemma crc_byte_inj_reg (x y : Z) (b : byte) :
  0 <= x <= 0xFFFF -> 0 <= y <= 0xFFFF ->
  Utils.crc_byte x b = Utils.crc_byte y b -> x = y.
Proof.
  intros Hx Hy H. unfold Utils.crc_byte in H.
  apply crc_bits_inj in H; try by apply xor_byte_range.
  apply (f_equal (fun z => Z.lxor z (Z.shiftl (byte_val b) 8))) in H.
  by rewrite !Z.lxor_assoc, !Z.lxor_nilpotent, !Z.lxor_0_r in H.
Qed.

Lemma crc_byte_inj_byte (reg : Z) (b b' : byte) :
  0 <= reg <= 0xFFFF ->
  Utils.crc_byte reg b = Utils.crc_byte reg b' -> b = b'.
Proof.
  intros Hr H. unfold Utils.crc_byte in H.
  apply crc_bits_inj in H; try by apply xor_byte_range.
  apply (f_equal (Z.lxor reg)) in H.
  rewrite <- !Z.lxor_assoc, !Z.lxor_nilpotent, !Z.lxor_0_l in H.
  apply byte_val_inj.
  apply (f_equal (fun z => Z.shiftr z 8)) in H.
  by rewrite !Z.shiftr_shiftl_l, !Z.sub_diag, !Z.shiftl_0_r in H by lia.
Qed.

Lemma crc_fold_range (data : list byte) (reg : Z) :
  0 <= reg <= 0xFFFF -> 0 <= fold_left Utils.crc_byte data reg <= 0xFFFF.
Proof.
  revert reg. induction data as [|b data IH]; intros reg Hr; [done|].
  cbn [fold_left]. apply IH, crc_byte_range.
Qed.

Lemma crc_fold_inj (data : list byte) (x y : Z) :
  0 <= x <= 0xFFFF -> 0 <= y <= 0xFFFF ->
  fold_left Utils.crc_byte data x = fold_left Utils.crc_byte data y -> x = y.
Proof.
  revert x y. induction data as [|b data IH]; intros x y Hx Hy H; [done|].
  cbn [fold_left] in H. apply IH in H; try apply crc_byte_range.
  by apply (crc_byte_inj_reg x y b).
Qed.

Lemma calc_crc_byte_change (pre post : list byte) (b b' : byte) :
  b <> b' ->
  Utils.calc_crc (pre ++ b :: post) <> Utils.calc_crc (pre ++ b' :: post).
Proof.
  intros Hne H. unfold Utils.calc_crc in H.
  rewrite !fold_left_app in H. cbn [fold_left] in H.
  apply crc_fold_inj in H; try apply crc_byte_range.
  apply crc_byte_inj_byte in H; [done|].
  apply crc_fold_range. lia.
Qed.

(** X18. Changing any single byte of a message changes its checksum,
    whatever the length of the message and the position of the byte. *)
Theorem calc_crc_detects_byte_change (pre post : list byte) (b b' : byte) :
  b <> b' ->
  Utils.calc_crc (pre ++ b :: post) <> Utils.calc_crc (pre ++ b' :: post).
Proof.
  intros Hne H. unfold Utils.calc_crc in H.
  rewrite !fold_left_app in H. cbn [fold_left] in H.
  apply crc_fold_inj in H; try apply crc_byte_range.
  apply crc_byte_inj_byte in H; [done|].
  apply crc_fold_range. lia.
Qed.

Lemma calc_crc_detects_byte_change_witness :
  x00 <> x02
  /\ Utils.calc_crc ([x51; x90; x01; x01] ++ x00 :: [])
     <> Utils.calc_crc ([x51; x90; x01; x01] ++ x02 :: []).
Proof.
  split; [discriminate|].
  apply (calc_crc_detects_byte_change [x51; x90; x01; x01] [] x00 x02). discriminate.
Defined.

(** X19. Hence driver.py rejects every valid frame in which one byte of
    the checksummed part (address, control, transactions) was changed:
    [parse_response] raises [RuntimeError("CRC mismatch")]. *)
Theorem driver_parse_detects_corruption (pre post : list byte) (b b' : byte)
    (a c : byte) (txs : list byte) (lo hi t1 t2 : byte) :
  a :: c :: txs = pre ++ b :: post ->
  byte_val lo + 256 * byte_val hi = Utils.calc_crc (a :: c :: txs) ->
  b <> b' ->
  Driver.parse_response ((pre ++ b' :: post) ++ [lo; hi; t1; t2])
  = Raise (RuntimeError "CRC mismatch").
Proof.
  intros Hsplit Hcrc Hne.
  assert (exists a' c' txs', pre ++ b' :: post = a' :: c' :: txs') as (a' & c' & txs' & E).
  { destruct pre as [|p0 [|p1 pre]].
    - destruct post as [|q post]; [discriminate Hsplit|]. by eexists _, _, _.
    - by eexists _, _, _.
    - by eexists _, _, _. }
  rewrite E. cbn [app]. apply driver_parse_crc_bad.
  rewrite Hcrc, Hsplit, <- E. by apply calc_crc_byte_change.
Qed.

Lemma driver_parse_detects_corruption_witness :
  [x51; x90; x01; x01; x02] = [x51; x90; x01; x01] ++ x02 :: []
  /\ byte_val xbf + 256 * byte_val x5d = Utils.calc_crc [x51; x90; x01; x01; x02]
  /\ x02 <> x04
  /\ Driver.parse_response (([x51; x90; x01; x01] ++ x04 :: []) ++ [xbf; x5d; x03; xfa])
     = Raise (RuntimeError "CRC mismatch").
Proof.
  assert (x02 <> x04) as Hne by discriminate.
  split; [reflexivity|]. split; [reflexivity|]. split; [exact Hne|].
  apply (driver_parse_detects_corruption [x51; x90; x01; x01] [] x02 x04
           x51 x90 [x01; x01; x02] xbf x5d x03 xfa); [reflexivity | reflexivity | exact Hne].
Defined.

(** ** utils.py: the BCD codec *)

(** X20. [bcd_pack] has no overflow check. For every number whose scaled
    value is not negative it returns exactly [length] bytes, each the value
    0..99 of one pair of decimal digits; read back as two-digit decimals
    they are the first [2 * length] characters of the zero-padded decimal
    rendering, so a value with more digits silently loses its last ones. *)
Theorem bcd_pack_bytes (number : float) (decimals len : nat) (k : Z) :
  Utils.scaled_of number decimals = Ok k ->
  0 <= k ->
  exists bs,
    Utils.bcd_pack number decimals len = Ok bs
    /\ length bs = len
    /\ Forall (fun b => 0 <= byte_val b <= 99) bs
    /\ Utils.bcd_digits bs = substring 0 (2 * len) (format_0d (2 * len) k).
Proof.
  intros Hs Hk. unfold Utils.bcd_pack. rewrite Hs, Ok_bind.
  rewrite (Nat.mul_comm len 2). by apply _int_to_bcd_nonneg.
Qed.

Lemma bcd_pack_bytes_witness :
  Utils.scaled_of f10000 2 = Ok 1000000
  /\ 0 <= 1000000
  /\ exists bs,
       Utils.bcd_pack f10000 2 3 = Ok bs
       /\ length bs = 3%nat
       /\ Forall (fun b => 0 <= byte_val b <= 99) bs
       /\ Utils.bcd_digits bs = substring 0 (2 * 3) (format_0d (2 * 3) 1000000).
Proof.
  split; [reflexivity|]. split; [lia|].
  apply (bcd_pack_bytes f10000 2 3 1000000); [reflexivity | lia].
Defined.







